(** * ol/tilegrid: tile grid factories, the default grid cache and wrapX

    A shallow embedding of [src/ol/tilegrid.js] and the properties of its
    functions.

    Numbers.  The module is embedded twice.  In the first embedding a
    JavaScript number is an exact rational ([Qc], rationals in lowest terms,
    so that equal numbers are equal terms): it describes the arithmetic the
    code writes down, and serves the statements on the structure of the
    results, on the options handed to the grid constructor and on the heap,
    which name the expressions the code computes without relying on their
    values.  In the second embedding (module [F64]) a number is an IEEE 754
    binary64 value, with rounding to nearest, gradual underflow, overflow to
    the infinities and NaN: the statements on the values of the resolutions
    and on the center [wrapX] moves are made there.  Zoom levels and array
    lengths are natural numbers (below the length limit of a JavaScript
    array), tile indices are integers. *)

From Stdlib Require Import ZArith QArith Qcanon Qround Lqa SpecFloat.
From stdpp Require Import base tactics option list numbers gmap strings.

Local Open Scope Qc_scope.

(** ** Numbers and the [Math] builtins used by the module *)

Abbreviation number := Qc.

(** [Math.max(a, b)] *)
Definition Math_max (a b : number) : number :=
  if decide (a < b) then b else a.

(** [Math.pow(base, z)] for a zoom level [z] *)
Definition Math_pow (base : number) (z : nat) : number := base ^ z.

(** [Math.ceil(x)]: the least integer that is not below [x] *)
Definition Math_ceil (x : number) : number := Qc_of_Z (Qceiling x).

(** ** Collaborators: extents, sizes, corners (ol/extent, ol/size) *)

(** An extent is the array [[minX, minY, maxX, maxY]], a coordinate the array
    [[x, y]], a size the array [[width, height]]. *)
Record Extent := mkExtent {
  minX : number; minY : number; maxX : number; maxY : number }.

Definition Coordinate : Type := number * number.

Definition Size : Type := number * number.

(** A tile size option is a number or a size ([number|ol.Size]). *)
Inductive SizeLike :=
| SizeNumber (n : number)
| SizePair (s : Size).

(** [ol/extent/Corner] *)
Inductive Corner := BOTTOM_LEFT | BOTTOM_RIGHT | TOP_LEFT | TOP_RIGHT.

(** Modelled from the spec: [createOrUpdate] of ol/extent, which is not among
    the sources ("construct/update an extent from four scalars"). *)
Definition createOrUpdate (x0 y0 x1 y1 : number) : Extent :=
  mkExtent x0 y0 x1 y1.

(** Modelled from the spec: [getWidth] of ol/extent ("Width = maxX - minX"). *)
Definition getWidth (e : Extent) : number := maxX e - minX e.

(** Modelled from the spec: [getHeight] of ol/extent ("height = maxY - minY"). *)
Definition getHeight (e : Extent) : number := maxY e - minY e.

(** Modelled from the spec: [containsCoordinate] of ol/extent
    ("containsPoint(extent, point) -> bool", a "closed containment test"). *)
Definition containsCoordinate (e : Extent) (c : Coordinate) : bool :=
  bool_decide (minX e ≤ c.1) && bool_decide (c.1 ≤ maxX e) &&
  bool_decide (minY e ≤ c.2) && bool_decide (c.2 ≤ maxY e).

(** Modelled from the spec: [getCorner] of ol/extent ("corner(extent, which) ->
    point", "one of four corner selections applied to the extent"); top is the
    side of [maxY], left the side of [minX]. *)
Definition getCorner (e : Extent) (corner : Corner) : Coordinate :=
  match corner with
  | BOTTOM_LEFT => (minX e, minY e)
  | BOTTOM_RIGHT => (maxX e, minY e)
  | TOP_LEFT => (minX e, maxY e)
  | TOP_RIGHT => (maxX e, maxY e)
  end.

(** Modelled from the spec: [toSize] of ol/size ("normalize a scalar-or-pair
    into a (width, height) pair"; a scalar is a square tile). *)
Definition toSize (s : SizeLike) : Size :=
  match s with
  | SizeNumber n => (n, n)
  | SizePair p => p
  end.

(** ** Arrays *)

(** A JavaScript array of numbers; [None] is a hole, as left by
    [new Array(length)] before the slot is assigned. *)
Abbreviation JsArray := (list (option number)).

(** [new Array(length)] *)
Definition new_Array (length : nat) : JsArray := replicate length None.

(** ** Collaborators: projections (ol/proj) *)

(** [ol/proj/Units]: the spec names degrees and meters; the module only reads
    the [DEGREES] entry of [METERS_PER_UNIT]. *)
Inductive Units := DEGREES | METERS.

(** Objects are identified by their address in the heap. *)
Abbreviation loc := positive.

(** Modelled from the spec: a Projection of ol/proj/Projection, which is not
    among the sources ("identified by code, has an optional native extent,
    units, and a meters-per-unit conversion factor; may lazily hold a
    reference to its default Grid").  The fields are named after the getters
    the module calls. *)
Record Projection := mkProjection {
  getCode : string;
  getUnits : Units;
  getExtent : option Extent;
  getMetersPerUnit : number;
  getDefaultTileGrid : option loc }.

(** [projection.setDefaultTileGrid(tileGrid)] *)
Definition setDefaultTileGrid (projection : Projection) (tileGrid : loc)
    : Projection :=
  mkProjection (getCode projection) (getUnits projection)
    (getExtent projection) (getMetersPerUnit projection) (Some tileGrid).

(** [ol/proj~ProjectionLike]: an identifier or a projection. *)
Inductive ProjectionLike :=
| ProjectionCode (code : string)
| ProjectionInstance (projection : Projection).

(** ** Collaborators: the grid (ol/tilegrid/TileGrid) *)

(** The options object a grid is constructed from
    ([olx.tilegrid.TileGridOptions], with the [maxZoom] and [minZoom] keys of
    [olx.tilegrid.XYZOptions] that [createXYZ] copies into it).  [None] is an
    absent ([undefined]) property. *)
Module Options.
Record t := mk {
  extent : option Extent;
  maxZoom : option nat;
  minZoom : option nat;
  origin : option Coordinate;
  resolutions : option (list (option number));
  tileSize : option SizeLike }.

(** The object literal [{}]. *)
Definition empty : t := mk None None None None None None.

(** [options.extent = e] *)
Definition set_extent (o : t) (e : option Extent) : t :=
  mk e (maxZoom o) (minZoom o) (origin o) (resolutions o) (tileSize o).

(** [options.resolutions = r] *)
Definition set_resolutions (o : t) (r : list (option number)) : t :=
  mk (extent o) (maxZoom o) (minZoom o) (origin o) (Some r) (tileSize o).

(** [delete options.maxZoom] *)
Definition delete_maxZoom (o : t) : t :=
  mk (extent o) None (minZoom o) (origin o) (resolutions o) (tileSize o).
End Options.

(** Modelled from the spec: [assign] of ol/obj, which is not among the sources
    (options are "shallow-merged onto an empty base: later values override
    earlier"): every property present in [source] is written to [target]. *)
Definition assign (target source : Options.t) : Options.t :=
  let over {A} (s t : option A) := match s with Some v => Some v | None => t end in
  Options.mk
    (over (Options.extent source) (Options.extent target))
    (over (Options.maxZoom source) (Options.maxZoom target))
    (over (Options.minZoom source) (Options.minZoom target))
    (over (Options.origin source) (Options.origin target))
    (over (Options.resolutions source) (Options.resolutions target))
    (over (Options.tileSize source) (Options.tileSize target)).

(** Modelled from the spec: the Grid entity of ol/tilegrid/TileGrid, which is
    not among the sources ("constructed from {extent, origin, resolutions,
    tileSize}").  A grid is the configuration [new TileGrid(options)] was
    given. *)
Record TileGrid := new_TileGrid { getOptions : Options.t }.

(** A tile coordinate is the array [[z, x, y]]. *)
Definition TileCoord : Type := Z * Z * Z.

Definition tileCoord_z (tileCoord : TileCoord) : Z := tileCoord.1.1.

(** The two queries [wrapX] makes of a grid ("tileCoordCenter(tileCoord) ->
    point and tileCoordForCoordAndZ(point, zoom) -> tileCoord").  Their
    implementation is not among the sources: [wrapX] is embedded over any
    grid type offering them. *)
Class TileGridLike (G : Type) := {
  getTileCoordCenter : G → TileCoord → Coordinate;
  getTileCoordForCoordAndZ : G → Coordinate → Z → TileCoord }.

(** ** The module's environment *)

(** What the module imports and the sources do not contain: the constants of
    ol/tilegrid/common, the table [METERS_PER_UNIT] of ol/proj and the
    registry of projections that [get] of ol/proj consults. *)
Class Environment := {
  DEFAULT_MAX_ZOOM : nat;
  DEFAULT_TILE_SIZE : number;
  METERS_PER_UNIT : Units → number;
  registry : gmap string Projection }.

(** The heap: the projection objects and the grids allocated so far. *)
Record Heap := mkHeap {
  projections : gmap loc Projection;
  tileGrids : gmap loc TileGrid }.

(** ** ol/tilegrid *)

(** The loop [for (let z = 0; z < length; ++z) resolutions[z] = ...] of
    [resolutionsFromExtent]; [fuel] bounds the number of iterations. *)
Fixpoint resolutions_loop (fuel : nat) (maxResolution : number)
    (length z : nat) (resolutions : JsArray) : JsArray :=
  match fuel with
  | O => resolutions
  | S fuel' =>
      if decide (z < length)%nat then
        resolutions_loop fuel' maxResolution length (S z)
          (<[z := Some (maxResolution / Math_pow 2 z)]> resolutions)
      else resolutions
  end.

Section tilegrid.

Context `{Environment}.

(** Modelled from the spec: [get] of ol/proj ("resolve an identifier or
    pass-through instance to a projection object"); an identifier the
    registry does not know resolves to no projection. *)
Definition getProjection (projectionLike : ProjectionLike)
    : option Projection :=
  match projectionLike with
  | ProjectionCode code => registry !! code
  | ProjectionInstance projection => Some projection
  end.

(** [None] is the TypeError raised by [projection.getExtent()] when the
    identifier resolves to no projection. *)
Definition extentFromProjection (projection : ProjectionLike)
    : option Extent :=
  projection ← getProjection projection;
  let extent := getExtent projection in
  Some (match extent with
        | Some extent => extent
        | None =>
            let half := Qc_of_Z 180 * METERS_PER_UNIT DEGREES /
                        getMetersPerUnit projection in
            createOrUpdate (- half) (- half) half half
        end).

Definition resolutionsFromExtent (extent : Extent) (opt_maxZoom : option nat)
    (opt_tileSize : option SizeLike) : JsArray :=
  let maxZoom := match opt_maxZoom with
                 | Some m => m
                 | None => DEFAULT_MAX_ZOOM
                 end in
  let height := getHeight extent in
  let width := getWidth extent in
  let tileSize := toSize (match opt_tileSize with
                          | Some s => s
                          | None => SizeNumber DEFAULT_TILE_SIZE
                          end) in
  let maxResolution := Math_max (width / tileSize.1) (height / tileSize.2) in
  let length := (maxZoom + 1)%nat in
  let resolutions := new_Array length in
  resolutions_loop length maxResolution length 0 resolutions.

Definition createForExtent (extent : Extent) (opt_maxZoom : option nat)
    (opt_tileSize : option SizeLike) (opt_corner : option Corner) : TileGrid :=
  let corner := match opt_corner with
                | Some c => c
                | None => TOP_LEFT
                end in
  let resolutions := resolutionsFromExtent extent opt_maxZoom opt_tileSize in
  new_TileGrid
    {| Options.extent := Some extent;
       Options.maxZoom := None;
       Options.minZoom := None;
       Options.origin := Some (getCorner extent corner);
       Options.resolutions := Some resolutions;
       Options.tileSize := opt_tileSize |}.

Definition createForProjection (projection : ProjectionLike)
    (opt_maxZoom : option nat) (opt_tileSize : option SizeLike)
    (opt_corner : option Corner) : option TileGrid :=
  extent ← extentFromProjection projection;
  Some (createForExtent extent opt_maxZoom opt_tileSize opt_corner).

(** [None] is a TypeError: 'EPSG:3857' is not registered, or the effective
    extent is [null] when [getHeight] reads it. *)
Definition createXYZ (opt_options : option Options.t) : option TileGrid :=
  let options := Options.empty in
  let options := assign options (match opt_options with
                                 | Some o => o
                                 | None => Options.empty
                                 end) in
  options ← (match Options.extent options with
             | None =>
                 projection ← getProjection (ProjectionCode "EPSG:3857");
                 Some (Options.set_extent options (getExtent projection))
             | Some _ => Some options
             end);
  extent ← Options.extent options;
  let options := Options.set_resolutions options
    (resolutionsFromExtent extent (Options.maxZoom options)
       (Options.tileSize options)) in
  let options := Options.delete_maxZoom options in
  Some (new_TileGrid options).

(** [projection] is the address of the projection object; the grid made by
    [createForProjection] is a new object of the heap.  [None] is the
    TypeError of a call on an address that holds no projection. *)
Definition getForProjection (projection : loc) (h : Heap)
    : option (loc * Heap) :=
  p ← projections h !! projection;
  match getDefaultTileGrid p with
  | Some tileGrid => Some (tileGrid, h)
  | None =>
      grid ← createForProjection (ProjectionInstance p) None None None;
      let tileGrid := fresh (dom (tileGrids h)) in
      Some (tileGrid,
            mkHeap (<[projection := setDefaultTileGrid p tileGrid]>
                      (projections h))
                   (<[tileGrid := grid]> (tileGrids h)))
  end.

(** [center[0] += worldWidth * worldsAway] updates the array returned by the
    grid in place; the updated array is the pair bound to [center] below. *)
Definition wrapX {G : Type} `{TileGridLike G} (tileGrid : G)
    (tileCoord : TileCoord) (projection : ProjectionLike)
    : option TileCoord :=
  let z := tileCoord_z tileCoord in
  let center := getTileCoordCenter tileGrid tileCoord in
  projectionExtent ← extentFromProjection projection;
  if negb (containsCoordinate projectionExtent center) then
    let worldWidth := getWidth projectionExtent in
    let worldsAway :=
      Math_ceil ((minX projectionExtent - center.1) / worldWidth) in
    let center := (center.1 + worldWidth * worldsAway, center.2) in
    Some (getTileCoordForCoordAndZ tileGrid center z)
  else Some tileCoord.

(** The square extent assumed for a projection that declares none. *)
Definition globalExtent (projection : Projection) : Extent :=
  let half := Qc_of_Z 180 * METERS_PER_UNIT DEGREES /
              getMetersPerUnit projection in
  mkExtent (- half) (- half) half half.

End tilegrid.

(** ** Notions used in the statements *)

(** The level-0 resolution computed from the effective tile size. *)
Definition maxResolution_of (extent : Extent) (tileSize : Size) : number :=
  Math_max (getWidth extent / tileSize.1) (getHeight extent / tileSize.2).

(** The default grid a projection holds is a grid of the heap. *)
Definition heap_wf (h : Heap) : Prop :=
  ∀ l p g,
    projections h !! l = Some p → getDefaultTileGrid p = Some g →
    is_Some (tileGrids h !! g).

(** The default grid that the projection at [l] holds in [h], if any. *)
Definition defaultTileGridOf (h : Heap) (l : loc) : option loc :=
  projections h !! l ≫= getDefaultTileGrid.

(** A sequence of calls of [getForProjection], one for each address of the
    list, in order: the grids returned and the heap after the last call. *)
Fixpoint getForProjection_each `{Environment} (ls : list loc) (h : Heap)
    : option (list loc * Heap) :=
  match ls with
  | [] => Some ([], h)
  | l :: ls' =>
      match getForProjection l h with
      | Some (g, h') =>
          match getForProjection_each ls' h' with
          | Some (gs, h'') => Some (g :: gs, h'')
          | None => None
          end
      | None => None
      end
  end.

(** ** A grid to run [wrapX] on, and sample data *)

(** [Math.floor(x)] *)
Definition Math_floor (x : number) : Z := Qfloor x.

(** Modelled from the spec: the two queries of the Grid entity, whose
    implementation (ol/tilegrid/TileGrid) is not among the sources.  The
    origin is "the reference point from which tile columns/rows are counted",
    a resolution is "map units per pixel at a given zoom level" and the tile
    size is in pixels, so that a tile of level [z] spans
    [tileSize * resolution z] map units; the resolution of level [z] is the
    level-0 resolution over [2 ^ z], as in the pyramids of
    [resolutionsFromExtent]. *)
Record LatticeGrid := mkLatticeGrid {
  lattice_origin : Coordinate;
  lattice_resolution : number;
  lattice_tileSize : number }.

Definition lattice_span (g : LatticeGrid) (z : Z) : number :=
  lattice_tileSize g * (lattice_resolution g / Math_pow 2 (Z.to_nat z)).

Definition one_half : number := Q2Qc (1 # 2).

Definition lattice_getTileCoordCenter (g : LatticeGrid) (tileCoord : TileCoord)
    : Coordinate :=
  let '(z, x, y) := tileCoord in
  ((lattice_origin g).1 + (Qc_of_Z x + one_half) * lattice_span g z,
   (lattice_origin g).2 + (Qc_of_Z y + one_half) * lattice_span g z).

Definition lattice_getTileCoordForCoordAndZ (g : LatticeGrid)
    (coordinate : Coordinate) (z : Z) : TileCoord :=
  (z,
   Math_floor ((coordinate.1 - (lattice_origin g).1) / lattice_span g z),
   Math_floor ((coordinate.2 - (lattice_origin g).2) / lattice_span g z)).


#[export] Instance LatticeGrid_TileGridLike : TileGridLike LatticeGrid := {
  getTileCoordCenter := lattice_getTileCoordCenter;
  getTileCoordForCoordAndZ := lattice_getTileCoordForCoordAndZ }.

Module Sample.

(** The extent of the end-to-end scenario of the spec. *)
Definition mercatorExtent : Extent :=
  let r := Q2Qc (2003750834 # 100) in mkExtent (- r) (- r) r r.

Definition epsg3857 : Projection :=
  mkProjection "EPSG:3857" METERS (Some mercatorExtent) 1 None.

(** A projection that declares no extent. *)
Definition unbounded : Projection :=
  mkProjection "unbounded" METERS None 1 None.

(** An environment: the registry holds 'EPSG:3857'; the degrees entry of
    [METERS_PER_UNIT] is a rational close to [2 * pi * 6370997 / 360]. *)
Definition env : Environment := {|
  DEFAULT_MAX_ZOOM := 42;
  DEFAULT_TILE_SIZE := Qc_of_Z 256;
  METERS_PER_UNIT := λ u, match u with
                          | DEGREES => Q2Qc (11119487 # 100)
                          | METERS => 1
                          end;
  registry := {[ "EPSG:3857" := epsg3857 ]} |}.

(** A world of four by four units and the grid of its tiles: one tile of four
    pixels at level 0, counted from the top-left corner. *)
Definition world : Projection :=
  mkProjection "world" METERS (Some (mkExtent 0 0 (Qc_of_Z 4) (Qc_of_Z 4)))
    1 None.

Definition worldGrid : LatticeGrid :=
  mkLatticeGrid (0, Qc_of_Z 4) 1 (Qc_of_Z 4).



(** A heap with two projections, neither holding a default grid. *)
Definition heap : Heap :=
  mkHeap (<[1%positive := epsg3857]> (<[2%positive := unbounded]> ∅)) ∅.

End Sample.

(** ** The module over IEEE 754 binary64 *)

(** The functions of the module that compute with numbers, embedded a second
    time with a number being a binary64 value: the operations round to
    nearest, ties to even, overflow to an infinity, underflow to a subnormal
    or a zero, and give NaN where IEEE 754 does.  Statements about the values
    the code computes are made on this embedding. *)
Module F64.

Abbreviation number := spec_float.

Definition prec : Z := 53.
Definition emax : Z := 1024.

(** The operators [+], [-], [*], [/], [<] and [<=] on numbers. *)
Definition add : number → number → number := SFadd prec emax.
Definition sub : number → number → number := SFsub prec emax.
Definition mul : number → number → number := SFmul prec emax.
Definition div : number → number → number := SFdiv prec emax.
Definition opp : number → number := SFopp.
Definition ltb : number → number → bool := SFltb.
Definition leb : number → number → bool := SFleb.

(** The number nearest to [m * 2 ^ e], and to the integer [n]. *)
Definition dyadic (m e : Z) : number := binary_normalize prec emax m e false.
Definition of_Z (n : Z) : number := dyadic n 0.

Definition is_zero (x : number) : bool :=
  match x with S754_zero _ => true | _ => false end.

Definition is_nan (x : number) : bool :=
  match x with S754_nan => true | _ => false end.

Definition is_infinity (x : number) : bool :=
  match x with S754_infinity _ => true | _ => false end.

(** The sign bit of a number: set for a negative number, for [-0] and for the
    negative infinity. *)
Definition signbit (x : number) : bool :=
  match x with
  | S754_zero s | S754_infinity s | S754_finite s _ _ => s
  | S754_nan => false
  end.





(** A zero or a finite number: not an infinity, not NaN. *)
Definition is_finite (x : number) : bool :=
  match x with S754_zero _ | S754_finite _ _ _ => true | _ => false end.

(** A normal number: a mantissa of 53 digits.  And the exponent of the last
    digit of the mantissa of a finite number. *)
Definition is_normal (x : number) : bool :=
  match x with
  | S754_finite _ m _ => Pos.eqb (digits2_pos m) 53
  | _ => false
  end.

Definition exponent (x : number) : Z :=
  match x with
  | S754_finite _ _ e => e
  | _ => 0%Z
  end.

(** The rational a finite number stands for (0 for the others). *)
Definition to_Q (x : number) : Q :=
  match x with
  | S754_finite s m e =>
      let v := if (0 <=? e)%Z then inject_Z (Zpos m * 2 ^ e)
               else Qmake (Zpos m) (Z.to_pos (2 ^ (- e))) in
      if s then Qopp v else v
  | _ => 0%Q
  end.

(** [Math.max(a, b)]: NaN when an argument is NaN, and [+0] above [-0]. *)
Definition Math_max (a b : number) : number :=
  match SFcompare a b with
  | None => S754_nan
  | Some Lt => b
  | Some Gt => a
  | Some Eq => match a with S754_zero true => b | _ => a end
  end.

(** [Math.pow(2, z)] for a zoom level [z]: [2 ^ z], an infinity from
    [z = 1024]. *)
Definition Math_pow_2 (z : nat) : number :=
  if (z <=? 1023)%nat
  then S754_finite false 4503599627370496 (Z.of_nat z - 52)
  else S754_infinity false.

(** [Math.ceil(x)]: the least integer not below [x], [-0] for [x] in
    [(-1, 0)], and [x] itself when it is a zero, an infinity or NaN. *)
Definition Math_ceil (x : number) : number :=
  match x with
  | S754_finite s m e =>
      if (0 <=? e)%Z then x
      else
        let d := (2 ^ (- e))%Z in
        if s then
          let n := (Zpos m / d)%Z in
          if (n =? 0)%Z then S754_zero true
          else binary_normalize prec emax (- n) 0 true
        else binary_normalize prec emax ((Zpos m + d - 1) / d) 0 false
  | _ => x
  end.

Record Extent := mkExtent {
  minX : number; minY : number; maxX : number; maxY : number }.

Definition Coordinate : Type := number * number.

Definition Size : Type := number * number.

Inductive SizeLike :=
| SizeNumber (n : number)
| SizePair (s : Size).

(** Modelled from the spec: [createOrUpdate], [getWidth], [getHeight],
    [containsCoordinate] of ol/extent and [toSize] of ol/size, which are not
    among the sources, as in the exact embedding. *)
Definition createOrUpdate (x0 y0 x1 y1 : number) : Extent :=
  mkExtent x0 y0 x1 y1.

Definition getWidth (e : Extent) : number := sub (maxX e) (minX e).

Definition getHeight (e : Extent) : number := sub (maxY e) (minY e).

Definition containsCoordinate (e : Extent) (c : Coordinate) : bool :=
  leb (minX e) c.1 && leb c.1 (maxX e) &&
  leb (minY e) c.2 && leb c.2 (maxY e).

Definition toSize (s : SizeLike) : Size :=
  match s with
  | SizeNumber n => (n, n)
  | SizePair p => p
  end.

(** The level-0 resolution as [resolutionsFromExtent] computes it. *)
Definition level0 (extent : Extent) (tileSize : Size) : number :=
  Math_max (div (getWidth extent) tileSize.1)
    (div (getHeight extent) tileSize.2).

Abbreviation JsArray := (list (option number)).

Definition new_Array (length : nat) : JsArray := replicate length None.

(** Modelled from the spec: a Projection of ol/proj/Projection, as in the
    exact embedding. *)
Record Projection := mkProjection {
  getCode : string;
  getUnits : Units;
  getExtent : option Extent;
  getMetersPerUnit : number;
  getDefaultTileGrid : option loc }.

Inductive ProjectionLike :=
| ProjectionCode (code : string)
| ProjectionInstance (projection : Projection).

(** The two queries [wrapX] makes of a grid. *)
Class TileGridLike (G : Type) := {
  getTileCoordCenter : G → TileCoord → Coordinate;
  getTileCoordForCoordAndZ : G → Coordinate → Z → TileCoord }.

Class Environment := {
  DEFAULT_MAX_ZOOM : nat;
  DEFAULT_TILE_SIZE : number;
  METERS_PER_UNIT : Units → number;
  registry : gmap string Projection }.

Fixpoint resolutions_loop (fuel : nat) (maxResolution : number)
    (length z : nat) (resolutions : JsArray) : JsArray :=
  match fuel with
  | O => resolutions
  | S fuel' =>
      if decide (z < length)%nat then
        resolutions_loop fuel' maxResolution length (S z)
          (<[z := Some (div maxResolution (Math_pow_2 z))]> resolutions)
      else resolutions
  end.

Section tilegrid.

Context `{Environment}.

Definition getProjection (projectionLike : ProjectionLike)
    : option Projection :=
  match projectionLike with
  | ProjectionCode code => registry !! code
  | ProjectionInstance projection => Some projection
  end.

Definition extentFromProjection (projection : ProjectionLike)
    : option Extent :=
  projection ← getProjection projection;
  let extent := getExtent projection in
  Some (match extent with
        | Some extent => extent
        | None =>
            let half := div (mul (of_Z 180) (METERS_PER_UNIT DEGREES))
                          (getMetersPerUnit projection) in
            createOrUpdate (opp half) (opp half) half half
        end).

Definition resolutionsFromExtent (extent : Extent) (opt_maxZoom : option nat)
    (opt_tileSize : option SizeLike) : JsArray :=
  let maxZoom := match opt_maxZoom with
                 | Some m => m
                 | None => DEFAULT_MAX_ZOOM
                 end in
  let height := getHeight extent in
  let width := getWidth extent in
  let tileSize := toSize (match opt_tileSize with
                          | Some s => s
                          | None => SizeNumber DEFAULT_TILE_SIZE
                          end) in
  let maxResolution :=
    Math_max (div width tileSize.1) (div height tileSize.2) in
  let length := (maxZoom + 1)%nat in
  let resolutions := new_Array length in
  resolutions_loop length maxResolution length 0 resolutions.

Definition wrapX {G : Type} `{TileGridLike G} (tileGrid : G)
    (tileCoord : TileCoord) (projection : ProjectionLike)
    : option TileCoord :=
  let z := tileCoord_z tileCoord in
  let center := getTileCoordCenter tileGrid tileCoord in
  projectionExtent ← extentFromProjection projection;
  if negb (containsCoordinate projectionExtent center) then
    let worldWidth := getWidth projectionExtent in
    let worldsAway :=
      Math_ceil (div (sub (minX projectionExtent) center.1) worldWidth) in
    let center := (add center.1 (mul worldWidth worldsAway), center.2) in
    Some (getTileCoordForCoordAndZ tileGrid center z)
  else Some tileCoord.

End tilegrid.

(** A grid given by its two queries. *)
Record QueryGrid := mkQueryGrid {
  centerOf : TileCoord → Coordinate;
  tileCoordAt : Coordinate → Z → TileCoord }.

#[export] Instance QueryGrid_TileGridLike : TileGridLike QueryGrid := {
  getTileCoordCenter := centerOf;
  getTileCoordForCoordAndZ := tileCoordAt }.

(** An environment with the constants of the library: 42 zoom levels, tiles
    of 256 pixels, [2 * pi * 6370997 / 360] meters per degree. *)
Definition sample_env : Environment := {|
  DEFAULT_MAX_ZOOM := 42;
  DEFAULT_TILE_SIZE := of_Z 256;
  METERS_PER_UNIT := λ u, match u with
                          | DEGREES => dyadic 7641253576568593 (-36)
                          | METERS => of_Z 1
                          end;
  registry := ∅ |}.

(** The square of longitudes and latitudes in degrees, the extent of a
    projection in degrees, and a projection declaring it. *)
Definition degreesExtent : Extent :=
  mkExtent (of_Z (-180)) (of_Z (-90)) (of_Z 180) (of_Z 90).

Definition degrees : Projection :=
  mkProjection "EPSG:4326" DEGREES (Some degreesExtent)
    (dyadic 7641253576568593 (-36)) None.

(** A grid reporting one center for every tile; asked for the tile of a
    point, it answers with column [-1] left of [edge] and column [0] from
    [edge] on. *)
Definition columnGrid (center : Coordinate) (edge : number) : QueryGrid :=
  mkQueryGrid (λ _, center)
    (λ coordinate z, (z, if ltb coordinate.1 edge then -1 else 0, 0)%Z).

End F64.

(** ** The loop of [resolutionsFromExtent] *)

(** Invariant of the loop: the slots below [z] are kept, every slot from [z]
    on is assigned its resolution. *)
Lemma resolutions_loop_spec (fuel : nat) (r : number) (len z : nat)
    (arr : JsArray) :
  length arr = len → (z + fuel = len)%nat →
  resolutions_loop fuel r len z arr =
    take z arr ++ ((λ i, Some (r / Math_pow 2 i)) <$> seq z fuel).
Proof.
  revert z arr. induction fuel as [|fuel IH]; intros z arr Hlen Hz; simpl.
  - rewrite app_nil_r, take_ge; [done | lia].
  - rewrite decide_True by lia.
    rewrite IH by (rewrite ?length_insert; lia).
    rewrite (take_S_r _ _ (Some (r / Math_pow 2 z))).
    + rewrite take_insert_ge by lia. by rewrite <-app_assoc.
    + apply list_lookup_insert_eq. lia.
Qed.

Section Pyramid.

Context `{Environment}.

Lemma resolutionsFromExtent_eq (extent : Extent) (opt_maxZoom : option nat)
    (opt_tileSize : option SizeLike) :
  resolutionsFromExtent extent opt_maxZoom opt_tileSize =
    (λ z, Some (maxResolution_of extent
                  (toSize (default (SizeNumber DEFAULT_TILE_SIZE) opt_tileSize))
                / Math_pow 2 z))
      <$> seq 0 (S (default DEFAULT_MAX_ZOOM opt_maxZoom)).
Proof.
  unfold resolutionsFromExtent, new_Array.
  set (m := match opt_maxZoom with Some m => m | None => _ end).
  replace (default DEFAULT_MAX_ZOOM opt_maxZoom) with m
    by (by destruct opt_maxZoom).
  set (s := match opt_tileSize with Some s => s | None => _ end).
  replace (default (SizeNumber DEFAULT_TILE_SIZE) opt_tileSize) with s
    by (by destruct opt_tileSize).
  rewrite (resolutions_loop_spec _ _ (m + 1) 0).
  - rewrite take_0. simpl. by replace (m + 1)%nat with (S m) by lia.
  - by rewrite length_replicate.
  - lia.
Qed.

Lemma resolutionsFromExtent_length (extent : Extent)
    (opt_maxZoom : option nat) (opt_tileSize : option SizeLike) :
  length (resolutionsFromExtent extent opt_maxZoom opt_tileSize) =
    (default DEFAULT_MAX_ZOOM opt_maxZoom + 1)%nat.
Proof. rewrite resolutionsFromExtent_eq, length_fmap, length_seq. lia. Qed.

End Pyramid.

(** ** The extent resolver and the grid factories *)

Section Factories.

Context `{Environment}.

(** C4.  [extentFromProjection] returns the extent a projection declares,
    unchanged; for a projection that declares none it returns the square
    [(-half, -half, half, half)] with
    [half = 180 * METERS_PER_UNIT[DEGREES] / metersPerUnit]. *)
Theorem extentFromProjection_spec (projection : Projection) :
  (∀ extent, getExtent projection = Some extent →
     extentFromProjection (ProjectionInstance projection) = Some extent) ∧
  (getExtent projection = None →
     let half := Qc_of_Z 180 * METERS_PER_UNIT DEGREES /
                 getMetersPerUnit projection in
     extentFromProjection (ProjectionInstance projection) =
       Some (mkExtent (- half) (- half) half half)).
Proof.
  unfold extentFromProjection. simpl. split.
  - by intros extent ->.
  - by intros ->.
Qed.

(** A projection named by its identifier resolves through the registry first;
    an unknown identifier makes the call fail. *)
Lemma extentFromProjection_code (code : string) :
  extentFromProjection (ProjectionCode code) =
    (λ p, default (globalExtent p) (getExtent p)) <$> registry !! code.
Proof.
  unfold extentFromProjection. simpl.
  destruct (registry !! code) as [p|]; simpl; [| done].
  by destruct (getExtent p).
Qed.

Lemma extentFromProjection_instance (projection : Projection) :
  extentFromProjection (ProjectionInstance projection) =
    Some (default (globalExtent projection) (getExtent projection)).
Proof.
  unfold extentFromProjection. simpl. by destruct (getExtent projection).
Qed.

Lemma createForProjection_instance (projection : Projection)
    (opt_maxZoom : option nat) (opt_tileSize : option SizeLike)
    (opt_corner : option Corner) :
  createForProjection (ProjectionInstance projection)
    opt_maxZoom opt_tileSize opt_corner =
    Some (createForExtent (default (globalExtent projection)
                             (getExtent projection))
            opt_maxZoom opt_tileSize opt_corner).
Proof.
  unfold createForProjection. by rewrite extentFromProjection_instance.
Qed.

(** C5.  The grid made by [createForExtent] has the given extent, the selected
    corner of that extent as its origin and the resolutions of
    [resolutionsFromExtent] for the same extent, maximum zoom and tile size;
    without a corner argument the origin is the top-left corner. *)
Theorem createForExtent_spec (extent : Extent) (opt_maxZoom : option nat)
    (opt_tileSize : option SizeLike) :
  (∀ opt_corner,
     let options :=
       getOptions
         (createForExtent extent opt_maxZoom opt_tileSize opt_corner) in
     Options.extent options = Some extent ∧
     Options.resolutions options =
       Some (resolutionsFromExtent extent opt_maxZoom opt_tileSize) ∧
     Options.tileSize options = opt_tileSize) ∧
  (∀ corner,
     Options.origin
       (getOptions
          (createForExtent extent opt_maxZoom opt_tileSize (Some corner))) =
     Some (getCorner extent corner)) ∧
  Options.origin
    (getOptions (createForExtent extent opt_maxZoom opt_tileSize None)) =
    Some (minX extent, maxY extent).
Proof. done. Qed.

(** C8.  [createForProjection] is [createForExtent] applied to the extent that
    [extentFromProjection] resolves; without a corner argument the origin of
    the grid is the top-left corner of that extent, which is the bottom-left
    corner only for an extent of no height. *)
Theorem createForProjection_spec (projection : ProjectionLike)
    (opt_maxZoom : option nat) (opt_tileSize : option SizeLike) :
  (∀ opt_corner,
     createForProjection projection opt_maxZoom opt_tileSize opt_corner =
       (λ extent, createForExtent extent opt_maxZoom opt_tileSize opt_corner)
         <$> extentFromProjection projection) ∧
  (∀ p, ∃ grid,
     createForProjection (ProjectionInstance p)
       opt_maxZoom opt_tileSize None = Some grid) ∧
  (∀ extent grid,
     extentFromProjection projection = Some extent →
     createForProjection projection opt_maxZoom opt_tileSize None =
       Some grid →
     Options.origin (getOptions grid) = Some (getCorner extent TOP_LEFT) ∧
     (Options.origin (getOptions grid) = Some (getCorner extent BOTTOM_LEFT)
        ↔ minY extent = maxY extent)).
Proof.
  unfold createForProjection. split; [| split].
  - intros opt_corner. by destruct (extentFromProjection projection).
  - intros p. fold (createForProjection (ProjectionInstance p)
                      opt_maxZoom opt_tileSize None).
    rewrite createForProjection_instance. eauto.
  - intros extent grid Hextent Hgrid. rewrite Hextent in Hgrid.
    simplify_eq/=. split; [done |]. split; congruence.
Qed.

Lemma assign_empty_l (source : Options.t) :
  assign Options.empty source = source.
Proof.
  destruct source as [e mz mn o rs ts]. unfold assign. simpl.
  by destruct e, mz, mn, o, rs, ts.
Qed.

(** [createXYZ] in one step: the effective extent, then the grid. *)
Lemma createXYZ_eq (opt_options : option Options.t) :
  let options := default Options.empty opt_options in
  createXYZ opt_options =
    extent ← match Options.extent options with
             | Some extent => Some extent
             | None => registry !! "EPSG:3857" ≫= getExtent
             end;
    Some (new_TileGrid
            (Options.mk (Some extent) None (Options.minZoom options)
               (Options.origin options)
               (Some (resolutionsFromExtent extent (Options.maxZoom options)
                        (Options.tileSize options)))
               (Options.tileSize options))).
Proof.
  intros options. unfold createXYZ. rewrite assign_empty_l.
  replace (match opt_options with Some o => o | None => Options.empty end)
    with options by (by destruct opt_options).
  destruct (Options.extent options) as [extent|] eqn:Hextent; simpl.
  - rewrite Hextent. simpl.
    unfold Options.delete_maxZoom, Options.set_resolutions. simpl.
    by rewrite Hextent.
  - destruct (registry !! "EPSG:3857") as [p|]; simpl; [| done].
    by destruct (getExtent p).
Qed.

(** C7.  With 'EPSG:3857' registered with an extent, [createXYZ] without
    options, or with an empty options object, makes a grid that has the extent
    of that projection and, as its resolutions, the array
    [resolutionsFromExtent] returns for that extent and the defaults: it has
    [DEFAULT_MAX_ZOOM + 1] entries, and the entry of every level [z] up to
    [DEFAULT_MAX_ZOOM] is a number, the quotient by [2 ^ z] of the level-0
    resolution for tiles of [DEFAULT_TILE_SIZE] pixels.  No grid made by
    [createXYZ] is given a [maxZoom] option, whatever the options were: a
    [maxZoom] option [m] shows only in the resolutions, which are those of
    [resolutionsFromExtent] for the effective extent, [m] and the tile size
    of the options, [m + 1] numbers. *)
Theorem createXYZ_spec (epsg3857 : Projection) (extent : Extent) :
  registry !! "EPSG:3857" = Some epsg3857 →
  getExtent epsg3857 = Some extent →
  (∀ opt_options,
     opt_options = None ∨ opt_options = Some Options.empty →
     ∃ grid resolutions,
       createXYZ opt_options = Some grid ∧
       Options.extent (getOptions grid) = Some extent ∧
       Options.resolutions (getOptions grid) = Some resolutions ∧
       resolutions = resolutionsFromExtent extent None None ∧
       length resolutions = (DEFAULT_MAX_ZOOM + 1)%nat ∧
       ∀ z, (z ≤ DEFAULT_MAX_ZOOM)%nat →
         resolutions !! z =
           Some (Some (Math_max (getWidth extent / DEFAULT_TILE_SIZE)
                         (getHeight extent / DEFAULT_TILE_SIZE)
                       / Math_pow 2 z))) ∧
  (∀ opt_options grid,
     createXYZ opt_options = Some grid →
     Options.maxZoom (getOptions grid) = None) ∧
  (∀ options m,
     Options.maxZoom options = Some m →
     ∃ grid resolutions,
       createXYZ (Some options) = Some grid ∧
       Options.maxZoom (getOptions grid) = None ∧
       Options.extent (getOptions grid) =
         Some (default extent (Options.extent options)) ∧
       Options.resolutions (getOptions grid) = Some resolutions ∧
       resolutions =
         resolutionsFromExtent (default extent (Options.extent options))
           (Some m) (Options.tileSize options) ∧
       length resolutions = (m + 1)%nat ∧
       ∀ z, (z ≤ m)%nat →
         resolutions !! z =
           Some (Some (maxResolution_of
                         (default extent (Options.extent options))
                         (toSize (default (SizeNumber DEFAULT_TILE_SIZE)
                                    (Options.tileSize options)))
                       / Math_pow 2 z))).
Proof.
  intros Hreg Hext. split; [| split].
  - intros opt_options Hopt. rewrite createXYZ_eq.
    assert (default Options.empty opt_options = Options.empty) as ->
      by (by destruct Hopt as [-> | ->]).
    simpl. rewrite Hreg. simpl. rewrite Hext. simpl.
    do 2 eexists. split_and!; try done.
    + by rewrite resolutionsFromExtent_length.
    + intros z Hz. rewrite resolutionsFromExtent_eq, list_lookup_fmap.
      by rewrite lookup_seq_lt by (simpl; lia).
  - intros opt_options grid. rewrite createXYZ_eq. simpl.
    destruct (match Options.extent _ with Some _ => _ | None => _ end);
      simpl; intros Hg; by simplify_eq/=.
  - intros options m Hm. rewrite createXYZ_eq. simpl. rewrite Hm.
    assert (match Options.extent options with
            | Some extent => Some extent
            | None => registry !! "EPSG:3857" ≫= getExtent
            end = Some (default extent (Options.extent options))) as ->.
    { destruct (Options.extent options); [done |].
      rewrite Hreg. simpl. by rewrite Hext. }
    simpl. do 2 eexists. split_and!; try done.
    + by rewrite resolutionsFromExtent_length.
    + intros z Hz. rewrite resolutionsFromExtent_eq, list_lookup_fmap.
      by rewrite lookup_seq_lt by (simpl; lia).
Qed.

End Factories.

(** ** Linear arithmetic on numbers *)










(** ** wrapX *)

Section Wrap.

Context `{Environment} {G : Type} `{TileGridLike G}.

Variable tileGrid : G.
Variable tileCoord : TileCoord.
Variable projection : ProjectionLike.
Variable projectionExtent : Extent.

Hypothesis projection_resolved :
  extentFromProjection projection = Some projectionExtent.

Local Abbreviation center := (getTileCoordCenter tileGrid tileCoord).
Local Abbreviation z := (tileCoord_z tileCoord).
Local Abbreviation worldWidth := (getWidth projectionExtent).
Local Abbreviation worldsAway :=
  (Math_ceil ((minX projectionExtent - center.1) / worldWidth)).

Lemma wrapX_eq :
  wrapX tileGrid tileCoord projection =
    Some (if containsCoordinate projectionExtent center then tileCoord
          else getTileCoordForCoordAndZ tileGrid
                 (center.1 + worldWidth * worldsAway, center.2) z).
Proof.
  unfold wrapX. rewrite projection_resolved. simpl.
  by destruct (containsCoordinate projectionExtent center).
Qed.

(** C3.  A tile coordinate whose center the extent of the projection contains
    is returned as it is. *)
Theorem wrapX_inside :
  containsCoordinate projectionExtent center = true →
  wrapX tileGrid tileCoord projection = Some tileCoord.
Proof. intros Hin. by rewrite wrapX_eq, Hin. Qed.

End Wrap.

(** ** The default grid of a projection *)

Section Cache.

Context `{Environment}.

Lemma getForProjection_hit (h : Heap) (l : loc) (p : Projection) (g : loc) :
  projections h !! l = Some p → getDefaultTileGrid p = Some g →
  getForProjection l h = Some (g, h).
Proof. intros Hp Hg. unfold getForProjection. by rewrite Hp; simpl; rewrite Hg. Qed.

Lemma getForProjection_miss (h : Heap) (l : loc) (p : Projection) :
  projections h !! l = Some p → getDefaultTileGrid p = None →
  ∃ grid,
    createForProjection (ProjectionInstance p) None None None = Some grid ∧
    getForProjection l h =
      Some (fresh (dom (tileGrids h)),
            mkHeap (<[l := setDefaultTileGrid p (fresh (dom (tileGrids h)))]>
                      (projections h))
                   (<[fresh (dom (tileGrids h)) := grid]> (tileGrids h))).
Proof.
  intros Hp Hg.
  pose proof (createForProjection_instance p None None None) as Hgrid.
  eexists. split; [exact Hgrid |].
  unfold getForProjection. rewrite Hp.
  change (Some p ≫= ?f) with (f p). cbv beta. rewrite Hg, Hgrid. done.
Qed.

(** The call succeeds on every projection of the heap. *)
Lemma getForProjection_total (h : Heap) (l : loc) :
  is_Some (projections h !! l) → is_Some (getForProjection l h).
Proof.
  intros [p Hp]. destruct (getDefaultTileGrid p) as [g|] eqn:Hg.
  - rewrite (getForProjection_hit h l p g) by done. eauto.
  - destruct (getForProjection_miss h l p) as (grid & _ & ->); eauto.
Qed.

(** The two ways a call returns. *)
Lemma getForProjection_inv (h h' : Heap) (l g : loc) :
  getForProjection l h = Some (g, h') →
  ∃ p, projections h !! l = Some p ∧
    (getDefaultTileGrid p = Some g ∧ h' = h ∨
     getDefaultTileGrid p = None ∧
     ∃ grid,
       createForProjection (ProjectionInstance p) None None None = Some grid ∧
       g = fresh (dom (tileGrids h)) ∧
       h' = mkHeap (<[l := setDefaultTileGrid p g]> (projections h))
                   (<[g := grid]> (tileGrids h))).
Proof.
  intros Hcall.
  destruct (projections h !! l) as [p|] eqn:Hp;
    [| by unfold getForProjection in Hcall; rewrite Hp in Hcall].
  exists p. split; [done |].
  destruct (getDefaultTileGrid p) as [g0|] eqn:Hg.
  - rewrite (getForProjection_hit h l p g0) in Hcall by done.
    left. by simplify_eq.
  - destruct (getForProjection_miss h l p Hp Hg) as (grid & Hgrid & Heq).
    rewrite Heq in Hcall. right. split; [done |]. exists grid. by simplify_eq.
Qed.

Lemma fresh_grid_ne (h : Heap) (g : loc) (grid : TileGrid) :
  tileGrids h !! g = Some grid → fresh (dom (tileGrids h)) ≠ g.
Proof.
  intros Hgrid Heq. apply (is_fresh (dom (tileGrids h))).
  rewrite Heq. apply elem_of_dom. eauto.
Qed.

(** After the call the projection holds the grid that was returned. *)
Lemma getForProjection_stored (h h' : Heap) (l g : loc) :
  getForProjection l h = Some (g, h') → defaultTileGridOf h' l = Some g.
Proof.
  intros Hcall. unfold defaultTileGridOf.
  destruct (getForProjection_inv _ _ _ _ Hcall)
    as (p & Hp & [[Hg ->] | (Hg & grid & Hgrid & -> & ->)]).
  - by rewrite Hp.
  - simpl. by rewrite lookup_insert_eq.
Qed.

(** A default grid, once held, is kept by every later call, on whatever
    projection. *)
Lemma getForProjection_keeps (h h' : Heap) (l l' g g' : loc) :
  defaultTileGridOf h l' = Some g' →
  getForProjection l h = Some (g, h') →
  defaultTileGridOf h' l' = Some g'.
Proof.
  unfold defaultTileGridOf. intros Hl' Hcall.
  destruct (getForProjection_inv _ _ _ _ Hcall)
    as (p & Hp & [[Hg ->] | (Hg & grid & Hgrid & -> & ->)]); [done |].
  simpl. destruct (decide (l = l')) as [-> | Hne].
  - rewrite Hp in Hl'. simpl in Hl'. congruence.
  - by rewrite lookup_insert_ne.
Qed.

(** The grids of the heap are never replaced. *)
Lemma getForProjection_grids (h h' : Heap) (l g g0 : loc) (grid : TileGrid) :
  tileGrids h !! g0 = Some grid →
  getForProjection l h = Some (g, h') →
  tileGrids h' !! g0 = Some grid.
Proof.
  intros Hg0 Hcall.
  destruct (getForProjection_inv _ _ _ _ Hcall)
    as (p & Hp & [[Hg ->] | (Hg & grid' & Hgrid & -> & ->)]); [done |].
  simpl. rewrite lookup_insert_ne; [done |]. by eapply fresh_grid_ne.
Qed.

Lemma getForProjection_wf (h h' : Heap) (l g : loc) :
  heap_wf h → getForProjection l h = Some (g, h') → heap_wf h'.
Proof.
  intros Hwf Hcall.
  destruct (getForProjection_inv _ _ _ _ Hcall)
    as (p & Hp & [[Hg ->] | (Hg & grid & Hgrid & -> & ->)]); [done |].
  intros l' p' g'. simpl.
  destruct (decide (l = l')) as [-> | Hne].
  - rewrite lookup_insert_eq. intros ? Hg'. simplify_eq. simpl in Hg'.
    simplify_eq. rewrite lookup_insert_eq. eauto.
  - rewrite lookup_insert_ne by done. intros Hp' Hg'.
    destruct (Hwf l' p' g' Hp' Hg') as [grid' Hgrid'].
    exists grid'. rewrite lookup_insert_ne; [done |]. by eapply fresh_grid_ne.
Qed.

(** A second call on the same projection returns the same grid and leaves the
    heap as it is. *)
Lemma getForProjection_again (h h' : Heap) (l g : loc) :
  getForProjection l h = Some (g, h') →
  getForProjection l h' = Some (g, h').
Proof.
  intros Hcall. apply getForProjection_stored in Hcall.
  unfold defaultTileGridOf in Hcall.
  destruct (projections h' !! l) as [p|] eqn:Hp; simpl in Hcall; [| done].
  by apply (getForProjection_hit h' l p g).
Qed.

(** A grid made for a projection without a default grid is a new object, and
    it is the grid [createForProjection] computes from that projection. *)
Lemma getForProjection_new (h h' : Heap) (l g : loc) (p : Projection) :
  projections h !! l = Some p → getDefaultTileGrid p = None →
  getForProjection l h = Some (g, h') →
  tileGrids h !! g = None ∧
  tileGrids h' !! g = createForProjection (ProjectionInstance p) None None None.
Proof.
  intros Hp Hg Hcall.
  destruct (getForProjection_miss h l p Hp Hg) as (grid & Hgrid & Heq).
  rewrite Heq in Hcall. simplify_eq. simpl. split.
  - apply not_elem_of_dom, is_fresh.
  - by rewrite lookup_insert_eq.
Qed.

Lemma getForProjection_other (h h' : Heap) (l l' g : loc) :
  l ≠ l' → getForProjection l h = Some (g, h') →
  projections h' !! l' = projections h !! l'.
Proof.
  intros Hne Hcall.
  destruct (getForProjection_inv _ _ _ _ Hcall)
    as (p & Hp & [[Hg ->] | (Hg & grid & Hgrid & -> & ->)]); [done |].
  simpl. by rewrite lookup_insert_ne.
Qed.

Lemma heap_wf_stored (h : Heap) (l g : loc) :
  heap_wf h → defaultTileGridOf h l = Some g → is_Some (tileGrids h !! g).
Proof.
  unfold defaultTileGridOf. intros Hwf Hl.
  destruct (projections h !! l) as [p|] eqn:Hp; [| done]. by eapply Hwf.
Qed.

(** C6.  In a well-formed heap, the first call on a projection returns a grid
    (made by [createForProjection] at that moment when the projection held
    none), a second call returns the same object and changes nothing; a call
    on another projection, which holds no grid yet, returns another object,
    the grid [createForProjection] computes from that projection, and leaves
    the first grid and every default grid already held in place. *)
Theorem getForProjection_cache (h : Heap) (l1 l2 : loc) (p1 p2 : Projection) :
  heap_wf h →
  projections h !! l1 = Some p1 → projections h !! l2 = Some p2 →
  l1 ≠ l2 → getDefaultTileGrid p2 = None →
  ∃ g1 h1 g2 h2,
    getForProjection l1 h = Some (g1, h1) ∧
    (getDefaultTileGrid p1 = None →
       tileGrids h !! g1 = None ∧
       tileGrids h1 !! g1 =
         createForProjection (ProjectionInstance p1) None None None) ∧
    getForProjection l1 h1 = Some (g1, h1) ∧
    getForProjection l2 h1 = Some (g2, h2) ∧
    g2 ≠ g1 ∧
    tileGrids h1 !! g2 = None ∧
    tileGrids h2 !! g2 =
      createForProjection (ProjectionInstance p2) None None None ∧
    tileGrids h2 !! g1 = tileGrids h1 !! g1 ∧
    getForProjection l1 h2 = Some (g1, h2) ∧
    getForProjection l2 h2 = Some (g2, h2) ∧
    (∀ l g, defaultTileGridOf h l = Some g → defaultTileGridOf h2 l = Some g).
Proof.
  intros Hwf Hp1 Hp2 Hne Hg2.
  destruct (getForProjection_total h l1) as [[g1 h1] Hcall1]; [by eauto |].
  assert (Hwf1 : heap_wf h1) by (by eapply getForProjection_wf).
  assert (Hp2' : projections h1 !! l2 = Some p2)
    by (by rewrite (getForProjection_other h h1 l1 l2 g1)).
  destruct (getForProjection_total h1 l2) as [[g2 h2] Hcall2]; [by eauto |].
  destruct (getForProjection_new h1 h2 l2 g2 p2 Hp2' Hg2 Hcall2)
    as [Hfresh2 Hgrid2].
  assert (Hstored1 : defaultTileGridOf h1 l1 = Some g1)
    by (by eapply getForProjection_stored).
  destruct (heap_wf_stored h1 l1 g1 Hwf1 Hstored1) as [grid1 Hgrid1].
  assert (Hstored1' : defaultTileGridOf h2 l1 = Some g1)
    by (by eapply getForProjection_keeps).
  exists g1, h1, g2, h2. split_and!.
  - done.
  - intros Hg1. by eapply (getForProjection_new h h1 l1 g1 p1).
  - by apply (getForProjection_again h).
  - done.
  - intros ->. congruence.
  - done.
  - done.
  - rewrite Hgrid1. by eapply getForProjection_grids.
  - unfold defaultTileGridOf in Hstored1'.
    destruct (projections h2 !! l1) as [p|] eqn:Hp; [| done].
    by apply (getForProjection_hit h2 l1 p g1).
  - by apply (getForProjection_again h1).
  - intros l g Hl. eapply getForProjection_keeps; [| exact Hcall2].
    by eapply getForProjection_keeps.
Qed.

End Cache.

(** ** More on the resolution pyramid *)

Section PyramidMore.

Context `{Environment}.

Lemma resolutionsFromExtent_lookup_gen (extent : Extent)
    (opt_maxZoom : option nat) (opt_tileSize : option SizeLike) (z : nat) :
  (z ≤ default DEFAULT_MAX_ZOOM opt_maxZoom)%nat →
  resolutionsFromExtent extent opt_maxZoom opt_tileSize !! z =
    Some (Some (maxResolution_of extent
                  (toSize (default (SizeNumber DEFAULT_TILE_SIZE)
                             opt_tileSize))
                / Math_pow 2 z)).
Proof.
  intros Hz. rewrite resolutionsFromExtent_eq, list_lookup_fmap.
  rewrite lookup_seq_lt by lia. done.
Qed.

(** X2.  A deeper pyramid extends a shallower one: the resolutions for a
    maximum zoom [m] are the first [m + 1] resolutions for any larger maximum
    zoom, the extent and the tile size being the same. *)
Theorem resolutionsFromExtent_prefix (extent : Extent) (m m' : nat)
    (opt_tileSize : option SizeLike) :
  (m ≤ m')%nat →
  resolutionsFromExtent extent (Some m) opt_tileSize =
    take (m + 1) (resolutionsFromExtent extent (Some m') opt_tileSize).
Proof.
  intros Hm. rewrite !resolutionsFromExtent_eq. simpl default.
  rewrite <-fmap_take, take_seq. do 2 f_equal. lia.
Qed.

End PyramidMore.

(** ** More on the extent resolver and the factories *)

Section FactoriesMore.

Context `{Environment}.


(** X8.  A projection named by an identifier fails the three functions that
    resolve it exactly when the registry does not know the identifier, and
    otherwise gives what the registered projection gives; a projection object
    never fails them. *)
Theorem unknown_projection_propagates (code : string) :
  (extentFromProjection (ProjectionCode code) = None ↔
     registry !! code = None) ∧
  (∀ opt_maxZoom opt_tileSize opt_corner,
     createForProjection (ProjectionCode code)
       opt_maxZoom opt_tileSize opt_corner = None ↔
     registry !! code = None) ∧
  (∀ (G : Type) (queries : TileGridLike G) (tileGrid : G) tileCoord,
     wrapX tileGrid tileCoord (ProjectionCode code) = None ↔
     registry !! code = None) ∧
  (∀ projection,
     registry !! code = Some projection →
     extentFromProjection (ProjectionCode code) =
       extentFromProjection (ProjectionInstance projection) ∧
     (∀ opt_maxZoom opt_tileSize opt_corner,
        createForProjection (ProjectionCode code)
          opt_maxZoom opt_tileSize opt_corner =
        createForProjection (ProjectionInstance projection)
          opt_maxZoom opt_tileSize opt_corner) ∧
     (∀ (G : Type) (queries : TileGridLike G) (tileGrid : G) tileCoord,
        wrapX tileGrid tileCoord (ProjectionCode code) =
        wrapX tileGrid tileCoord (ProjectionInstance projection))) ∧
  (∀ projection (G : Type) (queries : TileGridLike G) (tileGrid : G)
     tileCoord,
     is_Some (extentFromProjection (ProjectionInstance projection)) ∧
     is_Some (wrapX tileGrid tileCoord (ProjectionInstance projection))).
Proof.
  assert (Hext : extentFromProjection (ProjectionCode code) = None ↔
                 registry !! code = None).
  { rewrite extentFromProjection_code.
    destruct (registry !! code); simpl; split; done. }
  split_and!.
  - done.
  - intros m ts c. rewrite <-Hext. unfold createForProjection.
    destruct (extentFromProjection (ProjectionCode code)); simpl;
      split; done.
  - intros G queries tileGrid tileCoord. rewrite <-Hext. unfold wrapX.
    destruct (extentFromProjection (ProjectionCode code)) as [e|]; simpl;
      [| done].
    destruct (containsCoordinate e _); simpl; split; done.
  - intros projection Hreg.
    assert (Heq : extentFromProjection (ProjectionCode code) =
                  extentFromProjection (ProjectionInstance projection)).
    { rewrite extentFromProjection_code, extentFromProjection_instance.
      by rewrite Hreg. }
    split_and!; [done | |].
    + intros m ts c. unfold createForProjection. by rewrite Heq.
    + intros G queries tileGrid tileCoord. unfold wrapX. by rewrite Heq.
  - intros projection G queries tileGrid tileCoord.
    rewrite (wrapX_eq tileGrid tileCoord (ProjectionInstance projection) _
               (extentFromProjection_instance projection)).
    rewrite extentFromProjection_instance. eauto.
Qed.


(** X10.  The grid of [createXYZ] keeps the [minZoom], [origin] and
    [tileSize] of the options as they are (an origin is never chosen for the
    caller), keeps their extent when there is one, and always carries the
    resolutions computed from the effective extent, the [maxZoom] and the
    [tileSize] of the options: resolutions given by the caller are replaced. *)
Theorem createXYZ_options (opt_options : option Options.t) (grid : TileGrid) :
  createXYZ opt_options = Some grid →
  let options := default Options.empty opt_options in
  Options.minZoom (getOptions grid) = Options.minZoom options ∧
  Options.origin (getOptions grid) = Options.origin options ∧
  Options.tileSize (getOptions grid) = Options.tileSize options ∧
  (∀ extent, Options.extent options = Some extent →
     Options.extent (getOptions grid) = Some extent) ∧
  ∃ extent,
    Options.extent (getOptions grid) = Some extent ∧
    Options.resolutions (getOptions grid) =
      Some (resolutionsFromExtent extent (Options.maxZoom options)
              (Options.tileSize options)).
Proof.
  rewrite createXYZ_eq. intros Hgrid options. fold options in Hgrid.
  destruct (match Options.extent options with
            | Some e => Some e
            | None => registry !! "EPSG:3857" ≫= getExtent
            end) as [e|] eqn:He; simpl in Hgrid; [| done].
  simplify_eq. simpl. split_and!; try done.
  - intros extent Hextent. rewrite Hextent in He. by simplify_eq.
  - by exists e.
Qed.

(** X11.  Given an extent, [createXYZ] and [createForExtent] make the same
    grid but for the origin: [createForExtent] sets a corner of the extent,
    [createXYZ] sets none. *)
Theorem createXYZ_createForExtent (extent : Extent)
    (opt_maxZoom : option nat) (opt_tileSize : option SizeLike)
    (opt_corner : option Corner) :
  ∃ grid,
    createXYZ (Some (Options.mk (Some extent) opt_maxZoom None None None
                       opt_tileSize)) = Some grid ∧
    let grid' :=
      createForExtent extent opt_maxZoom opt_tileSize opt_corner in
    Options.extent (getOptions grid) = Options.extent (getOptions grid') ∧
    Options.resolutions (getOptions grid) =
      Options.resolutions (getOptions grid') ∧
    Options.tileSize (getOptions grid) = Options.tileSize (getOptions grid') ∧
    Options.maxZoom (getOptions grid) = Options.maxZoom (getOptions grid') ∧
    Options.minZoom (getOptions grid) = Options.minZoom (getOptions grid') ∧
    Options.origin (getOptions grid) = None ∧
    is_Some (Options.origin (getOptions grid')).
Proof.
  rewrite createXYZ_eq. simpl. eexists. split; [done |]. simpl.
  split_and!; eauto.
Qed.

End FactoriesMore.

(** ** More on the default grid of a projection *)

Section CacheMore.

Context `{Environment}.

Lemma getForProjection_dom (h h' : Heap) (l g : loc) :
  getForProjection l h = Some (g, h') →
  dom (projections h') = dom (projections h).
Proof.
  intros Hcall.
  destruct (getForProjection_inv _ _ _ _ Hcall)
    as (p & Hp & [[Hg ->] | (Hg & grid & Hgrid & -> & ->)]); [done |].
  simpl. apply dom_insert_lookup_L. eauto.
Qed.

(** X16.  A call changes nothing but the default grid of the projection it is
    made on: the heap holds the same projections, with the code, the units,
    the extent and the meters per unit they had, every grid of the heap stays
    what it was, and at most one grid, the one returned, is new. *)
Theorem getForProjection_frame (h h' : Heap) (l g : loc) :
  getForProjection l h = Some (g, h') →
  dom (projections h') = dom (projections h) ∧
  (∀ l' p, projections h !! l' = Some p →
     ∃ p', projections h' !! l' = Some p' ∧
       getCode p' = getCode p ∧ getUnits p' = getUnits p ∧
       getExtent p' = getExtent p ∧
       getMetersPerUnit p' = getMetersPerUnit p ∧
       (l' ≠ l → p' = p)) ∧
  (∀ g0 grid, tileGrids h !! g0 = Some grid →
     tileGrids h' !! g0 = Some grid) ∧
  (tileGrids h' = tileGrids h ∨
   tileGrids h !! g = None ∧
   dom (tileGrids h') = {[g]} ∪ dom (tileGrids h)).
Proof.
  intros Hcall.
  destruct (getForProjection_inv _ _ _ _ Hcall)
    as (p & Hp & [[Hg ->] | (Hg & grid & Hgrid & -> & ->)]).
  - split_and!; eauto 10.
  - simpl. split_and!.
    + apply dom_insert_lookup_L. eauto.
    + intros l' p' Hp'. destruct (decide (l = l')) as [<- | Hne].
      * rewrite lookup_insert_eq. simplify_eq. eexists. split; [done |].
        by split_and!.
      * rewrite lookup_insert_ne by done. eexists. split; [done |].
        by split_and!.
    + intros g0 grid0 Hg0. rewrite lookup_insert_ne; [done |].
      by eapply fresh_grid_ne.
    + right. split.
      * apply not_elem_of_dom, is_fresh.
      * by rewrite dom_insert_L.
Qed.

(** X17.  The default grid made for a projection has the extent of the
    projection (the declared one, or the global square), its top-left corner
    as origin, no tile size of its own and [DEFAULT_MAX_ZOOM + 1]
    resolutions, starting at the resolution that shows the extent in one
    tile of [DEFAULT_TILE_SIZE] pixels. *)
Theorem getForProjection_default_grid (h h' : Heap) (l g : loc)
    (p : Projection) :
  projections h !! l = Some p → getDefaultTileGrid p = None →
  getForProjection l h = Some (g, h') →
  let extent := default (globalExtent p) (getExtent p) in
  ∃ grid resolutions,
    tileGrids h' !! g = Some grid ∧
    Options.extent (getOptions grid) = Some extent ∧
    Options.origin (getOptions grid) = Some (minX extent, maxY extent) ∧
    Options.tileSize (getOptions grid) = None ∧
    Options.maxZoom (getOptions grid) = None ∧
    Options.resolutions (getOptions grid) = Some resolutions ∧
    length resolutions = (DEFAULT_MAX_ZOOM + 1)%nat ∧
    resolutions !! 0%nat =
      Some (Some (Math_max (getWidth extent / DEFAULT_TILE_SIZE)
                    (getHeight extent / DEFAULT_TILE_SIZE))).
Proof.
  intros Hp Hg Hcall extent.
  destruct (getForProjection_new h h' l g p Hp Hg Hcall) as [_ Hnew].
  rewrite createForProjection_instance in Hnew. fold extent in Hnew.
  do 2 eexists. split; [exact Hnew |]. simpl. split_and!; try done.
  - by rewrite resolutionsFromExtent_length.
  - rewrite resolutionsFromExtent_lookup_gen by lia. do 2 f_equal.
    unfold maxResolution_of, Math_pow. simpl. unfold Qcdiv. field. done.
Qed.

Lemma getForProjection_each_hits (ls gs : list loc) (h : Heap) :
  Forall2 (λ l g, defaultTileGridOf h l = Some g) ls gs →
  getForProjection_each ls h = Some (gs, h).
Proof.
  induction 1 as [|l g ls gs Hl _ IH]; [done |]. simpl.
  unfold defaultTileGridOf in Hl.
  destruct (projections h !! l) as [p|] eqn:Hp; [| done].
  rewrite (getForProjection_hit h l p g) by done. by rewrite IH.
Qed.

Lemma getForProjection_each_run (ls : list loc) (h : Heap) :
  heap_wf h →
  Forall (λ l, is_Some (projections h !! l)) ls →
  ∃ gs h',
    getForProjection_each ls h = Some (gs, h') ∧
    heap_wf h' ∧
    Forall2 (λ l g, defaultTileGridOf h' l = Some g) ls gs ∧
    (∀ l g, defaultTileGridOf h l = Some g → defaultTileGridOf h' l = Some g) ∧
    (∀ l, projections h' !! l = None ↔ projections h !! l = None).
Proof.
  revert h. induction ls as [|l ls IH]; intros h Hwf Hall.
  - exists [], h. by split_and!.
  - apply Forall_cons in Hall as [Hl Hall].
    destruct (getForProjection_total h l Hl) as [[g h1] Hcall].
    pose proof (getForProjection_dom h h1 l g Hcall) as Hdom.
    assert (Hsame : ∀ l', projections h1 !! l' = None ↔
                          projections h !! l' = None).
    { intros l'. by rewrite <-!not_elem_of_dom, Hdom. }
    destruct (IH h1) as (gs & h' & Hrun & Hwf' & Hslots & Hkeep & Hnone).
    + by eapply getForProjection_wf.
    + eapply Forall_impl; [exact Hall |]. intros l' Hl'. simpl in Hl'.
      apply not_eq_None_Some. rewrite Hsame. by apply not_eq_None_Some.
    + exists (g :: gs), h'. simpl. rewrite Hcall, Hrun. split_and!.
      * done.
      * done.
      * constructor; [| done].
        apply Hkeep. by eapply getForProjection_stored.
      * intros l' g' Hl'. apply Hkeep. by eapply getForProjection_keeps.
      * intros l'. by rewrite Hnone, Hsame.
Qed.

(** X18.  Any sequence of calls on projections of a well-formed heap
    succeeds and returns one grid for each call; afterwards every projection
    called holds the grid returned for it (so two calls on one projection
    returned the same grid), every default grid held before is still held,
    and the same sequence of calls again returns the same grids and changes
    nothing. *)
Theorem getForProjection_each_stable (ls : list loc) (h : Heap) :
  heap_wf h →
  Forall (λ l, is_Some (projections h !! l)) ls →
  ∃ gs h',
    getForProjection_each ls h = Some (gs, h') ∧
    length gs = length ls ∧
    heap_wf h' ∧
    (∀ i l g, ls !! i = Some l → gs !! i = Some g →
       defaultTileGridOf h' l = Some g) ∧
    (∀ i j l g g', ls !! i = Some l → ls !! j = Some l →
       gs !! i = Some g → gs !! j = Some g' → g = g') ∧
    (∀ l g, defaultTileGridOf h l = Some g → defaultTileGridOf h' l = Some g) ∧
    getForProjection_each ls h' = Some (gs, h').
Proof.
  intros Hwf Hall.
  destruct (getForProjection_each_run ls h Hwf Hall)
    as (gs & h' & Hrun & Hwf' & Hslots & Hkeep & _).
  assert (Hat : ∀ i l g, ls !! i = Some l → gs !! i = Some g →
                  defaultTileGridOf h' l = Some g).
  { intros i l g Hl Hg.
    exact (Forall2_lookup_lr _ ls gs i l g Hslots Hl Hg). }
  exists gs, h'. split_and!; try done.
  - symmetry. exact (Forall2_length _ _ _ Hslots).
  - intros i j l g g' Hi Hj Hg Hg'.
    pose proof (Hat i l g Hi Hg). pose proof (Hat j l g' Hj Hg').
    congruence.
  - by apply getForProjection_each_hits.
Qed.

(** X19.  Calls on different projections that hold no default grid yet give
    different grids, none of them a grid the heap already had. *)
Theorem getForProjection_each_fresh (ls gs : list loc) (h h' : Heap) :
  heap_wf h →
  NoDup ls →
  Forall (λ l, ∃ p, projections h !! l = Some p ∧
                    getDefaultTileGrid p = None) ls →
  getForProjection_each ls h = Some (gs, h') →
  NoDup gs ∧ Forall (λ g, tileGrids h !! g = None) gs.
Proof.
  revert gs h. induction ls as [|l ls IH]; intros gs h Hwf Hnd Hall Hrun.
  - simpl in Hrun. simplify_eq. split; constructor.
  - apply NoDup_cons in Hnd as [Hl Hnd].
    apply Forall_cons in Hall as [(p & Hp & Hg) Hall].
    simpl in Hrun.
    destruct (getForProjection l h) as [[g h1]|] eqn:Hcall; [| done].
    destruct (getForProjection_each ls h1) as [[gs' h2]|] eqn:Hrest;
      [| done].
    simplify_eq.
    destruct (getForProjection_new h h1 l g p Hp Hg Hcall) as [Hfresh Hnew].
    destruct (IH gs' h1) as [Hnd' Hfresh']; try done.
    + by eapply getForProjection_wf.
    + apply Forall_forall. intros l' Hl'.
      rewrite Forall_forall in Hall.
      destruct (Hall l' Hl') as (p' & Hp' & Hg'). exists p'. split; [| done].
      rewrite (getForProjection_other h h1 l l' g); [done | | done].
      intros ->. done.
    + assert (Hin : is_Some (tileGrids h1 !! g)).
      { rewrite Hnew, createForProjection_instance. eauto. }
      split.
      * apply NoDup_cons. split; [| done]. intros Hmem.
        rewrite Forall_forall in Hfresh'. specialize (Hfresh' g Hmem).
        rewrite Hfresh' in Hin. by destruct Hin.
      * constructor; [done |].
        eapply Forall_impl; [exact Hfresh' |]. intros g' Hg'. simpl in Hg'.
        destruct (tileGrids h !! g') as [grid|] eqn:Hold; [| done].
        by rewrite (getForProjection_grids h h1 l g g' grid) in Hg'.
Qed.

End CacheMore.

(** ** The binary64 embedding: exact cases of the arithmetic *)

Module F64Facts.
Import F64.

Lemma div_eucl_shiftl (m : positive) (a b : Z) :
  (0 ≤ b)%Z → (0 ≤ a)%Z →
  Z.div_eucl (Z.shiftl (Zpos m) (a + b)) (2 ^ b) =
    (Z.shiftl (Zpos m) a, 0%Z).
Proof.
  intros Hb Ha.
  assert (Hpow : (0 < 2 ^ b)%Z) by (apply Z.pow_pos_nonneg; lia).
  rewrite !Z.shiftl_mul_pow2 by lia.
  rewrite Z.pow_add_r, Z.mul_assoc by lia.
  pose proof (Z.div_mul (Zpos m * 2 ^ a) (2 ^ b) ltac:(lia)) as Hq.
  pose proof (Z.mod_mul (Zpos m * 2 ^ a) (2 ^ b) ltac:(lia)) as Hr.
  unfold Z.div, Z.modulo in Hq, Hr.
  destruct (Z.div_eucl (Zpos m * 2 ^ a * 2 ^ b) (2 ^ b)) as [q r].
  simpl in *. congruence.
Qed.

Lemma div_eucl_shiftl_52 (m : positive) :
  Z.div_eucl (Z.shiftl (Zpos m) 52) 4503599627370496 = (Zpos m, 0%Z).
Proof. apply (div_eucl_shiftl m 0 52); lia. Qed.

Lemma div_eucl_shiftl_53 (m : positive) :
  Z.div_eucl (Z.shiftl (Zpos m) 53) 4503599627370496 = (Zpos m~0, 0%Z).
Proof. apply (div_eucl_shiftl m 1 52); lia. Qed.

Lemma fexp_normal (t : Z) : (-1074 ≤ t)%Z → fexp 53 1024 (53 + t) = t.
Proof. unfold fexp, emin. lia. Qed.

(** A mantissa of 53 digits with an exponent in range is not rounded. *)
Lemma round_canonical (s : bool) (m : positive) (t : Z) :
  digits2_pos m = 53%positive → (-1074 ≤ t)%Z → (t ≤ 971)%Z →
  binary_round_aux 53 1024 s (Zpos m) t loc_Exact = S754_finite s m t.
Proof.
  intros Hd Hlo Hhi.
  unfold binary_round_aux, shr_fexp.
  cbv beta iota zeta delta [Zdigits2 shr_record_of_loc].
  rewrite Hd, fexp_normal, Z.sub_diag by done.
  cbv beta iota zeta delta [shr shr_m loc_of_shr_record round_nearest_even
                            Zdigits2 shr_record_of_loc].
  rewrite Hd, fexp_normal, Z.sub_diag by done.
  cbv beta iota zeta delta [shr shr_m].
  replace (t <=? 1024 - 53)%Z with true by (symmetry; apply Z.leb_le; lia).
  reflexivity.
Qed.

Lemma round_doubled (s : bool) (m : positive) (t : Z) :
  digits2_pos m = 53%positive → (-1074 ≤ t)%Z → (t ≤ 971)%Z →
  binary_round_aux 53 1024 s (Zpos m~0) (t - 1) loc_Exact =
    S754_finite s m t.
Proof.
  intros Hd Hlo Hhi.
  unfold binary_round_aux, shr_fexp.
  cbv beta iota zeta delta [Zdigits2 shr_record_of_loc digits2_pos].
  fold digits2_pos. rewrite Hd.
  change (Z.pos (Pos.succ 53)) with 54%Z.
  replace (fexp 53 1024 (54 + (t - 1))) with t by (unfold fexp, emin; lia).
  replace (t - (t - 1))%Z with 1%Z by lia.
  cbv beta iota zeta delta [shr SpecFloat.iter_pos shr_1 orb shr_m loc_of_shr_record
                            round_nearest_even Zdigits2 shr_record_of_loc].
  replace (t - 1 + 1)%Z with t by lia.
  rewrite Hd, fexp_normal, Z.sub_diag by done.
  cbv beta iota zeta delta [shr shr_m].
  replace (t <=? 1024 - 53)%Z with true by (symmetry; apply Z.leb_le; lia).
  reflexivity.
Qed.

(** Dividing a normal number by a power of two only lowers its exponent, as
    long as the quotient is a normal number too. *)
Lemma div_pow2_normal (s : bool) (m : positive) (e k : Z) :
  digits2_pos m = 53%positive →
  (-1074 ≤ e - k)%Z → (e - k ≤ 971)%Z →
  div (S754_finite s m e) (S754_finite false 4503599627370496 (k - 52)) =
    S754_finite s m (e - k).
Proof.
  intros Hd Hlo Hhi.
  unfold div, prec, emax, SFdiv, SFdiv_core_binary.
  cbv beta iota zeta delta [Zdigits2]. rewrite Hd.
  change (digits2_pos 4503599627370496) with 53%positive.
  replace (53 + e - (53 + (k - 52)))%Z with (e - k + 52)%Z by lia.
  replace (e - (k - 52))%Z with (e - k + 52)%Z by lia.
  set (t := (e - k)%Z) in *.
  rewrite xorb_false_r.
  change (new_location 4503599627370496)
    with (new_location_even 4503599627370496).
  destruct (decide (t = (-1074)%Z)) as [Ht | Ht].
  - replace (Z.min (fexp 53 1024 (t + 52)) (t + 52)) with t
      by (unfold fexp, emin; lia).
    replace (t + 52 - t)%Z with 52%Z by lia.
    rewrite div_eucl_shiftl_52.
    change (new_location_even 4503599627370496 0) with loc_Exact.
    by apply round_canonical.
  - replace (Z.min (fexp 53 1024 (t + 52)) (t + 52)) with (t - 1)%Z
      by (unfold fexp, emin; lia).
    replace (t + 52 - (t - 1))%Z with 53%Z by lia.
    rewrite div_eucl_shiftl_53.
    change (new_location_even 4503599627370496 0) with loc_Exact.
    by apply round_doubled.
Qed.

(** A mantissa with the exponent of the format is not rounded. *)
Lemma round_bounded (s : bool) (m : positive) (t : Z) :
  bounded 53 1024 m t = true →
  binary_round_aux 53 1024 s (Zpos m) t loc_Exact = S754_finite s m t.
Proof.
  intros Hb. apply andb_true_iff in Hb as [Hc Hhi].
  apply Z.eqb_eq in Hc. apply Z.leb_le in Hhi.
  unfold binary_round_aux, shr_fexp.
  cbv beta iota zeta delta [Zdigits2 shr_record_of_loc].
  rewrite Hc, Z.sub_diag.
  cbv beta iota zeta delta [shr shr_m loc_of_shr_record round_nearest_even
                            Zdigits2 shr_record_of_loc].
  rewrite Hc, Z.sub_diag.
  cbv beta iota zeta delta [shr shr_m].
  replace (t <=? 1024 - 53)%Z with true by (symmetry; apply Z.leb_le; lia).
  reflexivity.
Qed.

(** The mantissa of a number of the format has 53 digits, or fewer with the
    least exponent. *)
Lemma bounded_cases (m : positive) (e : Z) :
  bounded 53 1024 m e = true →
  (e ≤ 971)%Z ∧
  ((digits2_pos m = 53%positive ∧ (-1074 ≤ e)%Z) ∨
   ((Zpos (digits2_pos m) < 53)%Z ∧ e = (-1074)%Z)).
Proof.
  intros Hb. apply andb_true_iff in Hb as [Hc Hhi].
  apply Z.eqb_eq in Hc. apply Z.leb_le in Hhi.
  unfold fexp, emin in Hc. split; [lia |].
  destruct (decide (Zpos (digits2_pos m) = 53%Z)) as [Hd | Hd].
  - left. split; [congruence | lia].
  - right. lia.
Qed.

(** A number of the format over 1 is that number. *)
Lemma div_one (x : number) :
  valid_binary 53 1024 x = true → div x (Math_pow_2 0) = x.
Proof.
  destruct x as [s|s| |s m e]; try done; [by destruct s | by destruct s |].
  intros Hb. assert (Hb' := Hb). simpl in Hb'.
  apply bounded_cases in Hb' as [Hhi [[Hd Hlo] | [Hd He]]].
  - change (Math_pow_2 0) with (S754_finite false 4503599627370496 (0 - 52)).
    rewrite div_pow2_normal by (done || lia). f_equal. lia.
  - subst e. change (Math_pow_2 0)
      with (S754_finite false 4503599627370496 (-52)).
    unfold div, prec, emax, SFdiv, SFdiv_core_binary.
    cbv beta iota zeta delta [Zdigits2].
    change (digits2_pos 4503599627370496) with 53%positive.
    replace (Z.min (fexp 53 1024 (Z.pos (digits2_pos m) + -1074 - (53 + -52)))
               (-1074 - -52)) with (-1074)%Z
      by (unfold fexp, emin; lia).
    change (-1074 - -52 - -1074)%Z with 52%Z. cbv beta iota.
    rewrite div_eucl_shiftl_52, xorb_false_r.
    change (new_location 4503599627370496 0) with loc_Exact.
    by apply round_bounded.
Qed.

Lemma Math_pow_2_finite (z : nat) :
  (z ≤ 1023)%nat →
  Math_pow_2 z = S754_finite false 4503599627370496 (Z.of_nat z - 52).
Proof.
  intros Hz. unfold Math_pow_2.
  by replace (z <=? 1023)%nat with true by (symmetry; apply Nat.leb_le; lia).
Qed.

Lemma Math_pow_2_infinite (z : nat) :
  (1024 ≤ z)%nat → Math_pow_2 z = S754_infinity false.
Proof.
  intros Hz. unfold Math_pow_2.
  by replace (z <=? 1023)%nat with false
    by (symmetry; apply Nat.leb_gt; lia).
Qed.

Lemma div_Math_pow_2_normal (s : bool) (m : positive) (e : Z) (z : nat) :
  digits2_pos m = 53%positive → (e ≤ 971)%Z →
  (z ≤ 1023)%nat → (-1074 ≤ e - Z.of_nat z)%Z →
  div (S754_finite s m e) (Math_pow_2 z) = S754_finite s m (e - Z.of_nat z).
Proof.
  intros Hd He Hz Hlo. rewrite Math_pow_2_finite by done.
  apply div_pow2_normal; [done | lia | lia].
Qed.

(** Of two positive numbers with one mantissa, the one with the lower
    exponent is the smaller. *)
Lemma ltb_lower_exponent (m : positive) (e1 e2 : Z) :
  (e1 < e2)%Z → ltb (S754_finite false m e1) (S754_finite false m e2) = true.
Proof.
  intros He. unfold ltb, SFltb, SFcompare.
  by replace (e1 ?= e2)%Z with Lt by (symmetry; by apply Z.compare_lt_iff).
Qed.




(** ** The binary64 embedding: the sign of a quotient *)













(** A finite number over the infinity [2 ^ z] of a level from 1024 is a
    zero. *)
Lemma div_finite_Math_pow_2_overflow (x : number) (z : nat) :
  is_finite x = true → (1024 ≤ z)%nat →
  is_zero (div x (Math_pow_2 z)) = true.
Proof.
  intros Hx Hz. rewrite Math_pow_2_infinite by done. by destruct x.
Qed.

(** ** The binary64 embedding: the resolution pyramid *)

Lemma resolutions_loop_fill (fuel : nat) (r : number) (len z : nat)
    (arr : JsArray) :
  length arr = len → (z + fuel = len)%nat →
  resolutions_loop fuel r len z arr =
    take z arr ++ ((λ i, Some (div r (Math_pow_2 i))) <$> seq z fuel).
Proof.
  revert z arr. induction fuel as [|fuel IH]; intros z arr Hlen Hz; simpl.
  - rewrite app_nil_r, take_ge; [done | lia].
  - rewrite decide_True by lia.
    rewrite IH by (rewrite ?length_insert; lia).
    rewrite (take_S_r _ _ (Some (div r (Math_pow_2 z)))).
    + rewrite take_insert_ge by lia. by rewrite <-app_assoc.
    + apply list_lookup_insert_eq. lia.
Qed.

Section Resolutions.

Context `{Environment}.

Lemma resolutionsFromExtent_unfold (extent : Extent) (m : nat) (s : SizeLike) :
  resolutionsFromExtent extent (Some m) (Some s) =
    (λ z, Some (div (level0 extent (toSize s)) (Math_pow_2 z)))
      <$> seq 0 (S m).
Proof.
  unfold resolutionsFromExtent, new_Array.
  rewrite (resolutions_loop_fill _ _ (m + 1) 0).
  - rewrite take_0. simpl. by replace (m + 1)%nat with (S m) by lia.
  - by rewrite length_replicate.
  - lia.
Qed.

Lemma resolutionsFromExtent_size (extent : Extent) (m : nat)
    (s : SizeLike) :
  length (resolutionsFromExtent extent (Some m) (Some s)) = (m + 1)%nat.
Proof. rewrite resolutionsFromExtent_unfold, length_fmap, length_seq. lia. Qed.

Lemma resolutionsFromExtent_at (extent : Extent) (m : nat) (s : SizeLike)
    (z : nat) :
  (z ≤ m)%nat →
  resolutionsFromExtent extent (Some m) (Some s) !! z =
    Some (Some (div (level0 extent (toSize s)) (Math_pow_2 z))).
Proof.
  intros Hz. rewrite resolutionsFromExtent_unfold, list_lookup_fmap.
  rewrite lookup_seq_lt by lia. done.
Qed.

Lemma resolutionsFromExtent_at_inv (extent : Extent) (m : nat)
    (s : SizeLike) (z : nat) (r : option number) :
  resolutionsFromExtent extent (Some m) (Some s) !! z = Some r →
  (z ≤ m)%nat ∧
  r = Some (div (level0 extent (toSize s)) (Math_pow_2 z)).
Proof.
  intros Hr.
  assert (Hz : (z ≤ m)%nat).
  { apply lookup_lt_Some in Hr.
    rewrite resolutionsFromExtent_size in Hr. lia. }
  rewrite resolutionsFromExtent_at in Hr by done. split; congruence.
Qed.

(** C1, as the code has it.  For every extent, maximum zoom [m] and tile size
    [(tw, th)], [resolutionsFromExtent] returns [m + 1] resolutions, the one
    of level [z] being the binary64 quotient of the level-0 resolution
    [max (width / tw) (height / th)] by [Math.pow(2, z)]; level 0 holds the
    level-0 resolution itself.  When the level-0 resolution is a normal
    number [mL * 2 ^ eL], every level [z] up to 1023 at which
    [mL * 2 ^ (eL - z)] is still a normal number holds exactly that value,
    so that the resolutions, when positive, decrease strictly down to the
    last such level.  From level 1024, where [Math.pow(2, z)] is the
    infinity, a finite level-0 resolution gives zeros. *)
Theorem resolutions_pyramid (extent : Extent) (m : nat) (tw th : number) :
  let rs := resolutionsFromExtent extent (Some m) (Some (SizePair (tw, th))) in
  let maxResolution :=
    Math_max (div (getWidth extent) tw) (div (getHeight extent) th) in
  length rs = (m + 1)%nat ∧
  (∀ z, (z ≤ m)%nat →
     rs !! z = Some (Some (div maxResolution (Math_pow_2 z)))) ∧
  (valid_binary prec emax maxResolution = true →
   rs !! 0%nat = Some (Some maxResolution)) ∧
  (∀ (s : bool) (mL : positive) (eL : Z),
     maxResolution = S754_finite s mL eL →
     digits2_pos mL = 53%positive → (eL ≤ 971)%Z →
     (∀ z, (z ≤ m)%nat → (z ≤ 1023)%nat → (-1074 ≤ eL - Z.of_nat z)%Z →
        rs !! z = Some (Some (S754_finite s mL (eL - Z.of_nat z)))) ∧
     (s = false →
      ∀ i j ri rj, (i < j)%nat → (j ≤ 1023)%nat →
        (-1074 ≤ eL - Z.of_nat j)%Z →
        rs !! i = Some (Some ri) → rs !! j = Some (Some rj) →
        ltb rj ri = true)) ∧
  (is_finite maxResolution = true →
   ∀ z, (1024 ≤ z)%nat → (z ≤ m)%nat →
     ∃ r, rs !! z = Some (Some r) ∧ is_zero r = true).
Proof.
  intros rs maxResolution. subst rs.
  assert (Hat : ∀ z, (z ≤ m)%nat →
            resolutionsFromExtent extent (Some m) (Some (SizePair (tw, th)))
              !! z = Some (Some (div maxResolution (Math_pow_2 z)))).
  { intros z Hz. by rewrite resolutionsFromExtent_at. }
  split_and!.
  - apply resolutionsFromExtent_size.
  - done.
  - intros Hvalid. rewrite Hat by lia. by rewrite div_one.
  - intros s mL eL HL Hd He.
    assert (Hnormal : ∀ z, (z ≤ m)%nat → (z ≤ 1023)%nat →
              (-1074 ≤ eL - Z.of_nat z)%Z →
              resolutionsFromExtent extent (Some m)
                (Some (SizePair (tw, th))) !! z =
                Some (Some (S754_finite s mL (eL - Z.of_nat z)))).
    { intros z Hz Hz' Hlo'. rewrite Hat by done. rewrite HL.
      by rewrite div_Math_pow_2_normal. }
    split; [done |].
    intros -> i j ri rj Hij Hj' Hlo' Hi Hj.
    assert (Hjm : (j ≤ m)%nat)
      by (by apply resolutionsFromExtent_at_inv in Hj as [? _]).
    rewrite Hnormal in Hi by lia. rewrite Hnormal in Hj by lia.
    simplify_eq. apply ltb_lower_exponent. lia.
  - intros Hfin z Hz Hzm. eexists. split; [by apply Hat |].
    by apply div_finite_Math_pow_2_overflow.
Qed.


(** X1.  A zoom factor of 2, as the code has it.  Where the level-0
    resolution is a normal number [mL * 2 ^ eL], positive or negative, a
    level [z + 1] up to 1023 at which [mL * 2 ^ (eL - (z + 1))] is still a
    normal number holds exactly half the resolution of level [z]. *)
Theorem resolutions_halving (extent : Extent) (m : nat) (tileSize : SizeLike)
    (s : bool) (mL : positive) (eL : Z) (z : nat) :
  level0 extent (toSize tileSize) = S754_finite s mL eL →
  digits2_pos mL = 53%positive → (eL ≤ 971)%Z →
  (z + 1 ≤ m)%nat → (z + 1 ≤ 1023)%nat → (-1074 ≤ eL - Z.of_nat (z + 1))%Z →
  let rs := resolutionsFromExtent extent (Some m) (Some tileSize) in
  ∃ r, rs !! z = Some (Some r) ∧
       rs !! (z + 1)%nat = Some (Some (div r (of_Z 2))).
Proof.
  intros HL Hd He Hm Hz Hlo rs. subst rs.
  exists (S754_finite s mL (eL - Z.of_nat z)).
  rewrite !resolutionsFromExtent_at by lia. rewrite HL.
  rewrite !div_Math_pow_2_normal by (done || lia).
  split; [done |]. do 2 f_equal.
  change (of_Z 2) with (S754_finite false 4503599627370496 (1 - 52)).
  rewrite div_pow2_normal by (done || lia). f_equal. lia.
Qed.

(** X20.  What is not a number stays so: a level-0 resolution that is NaN,
    as for an extent of no width and no height with a tile size of 0, gives
    NaN at every level; a level-0 resolution that is an infinity gives that
    infinity at every level up to 1023 and NaN from level 1024, where it is
    divided by the infinity [Math.pow(2, z)]. *)
Theorem resolutions_not_finite (extent : Extent) (m : nat)
    (tileSize : SizeLike) :
  let rs := resolutionsFromExtent extent (Some m) (Some tileSize) in
  let maxResolution := level0 extent (toSize tileSize) in
  (is_nan maxResolution = true →
   ∀ z, (z ≤ m)%nat → rs !! z = Some (Some S754_nan)) ∧
  (is_infinity maxResolution = true →
   ∀ z, (z ≤ m)%nat →
     rs !! z = Some (Some (if decide (z ≤ 1023)%nat then maxResolution
                           else S754_nan))).
Proof.
  intros rs maxResolution. subst rs. split.
  - intros Hnan z Hz. rewrite resolutionsFromExtent_at by done.
    fold maxResolution. by destruct maxResolution.
  - intros Hinf z Hz. rewrite resolutionsFromExtent_at by done.
    fold maxResolution. destruct (decide (z ≤ 1023)%nat) as [Hle | Hgt].
    + rewrite Math_pow_2_finite by done.
      by destruct maxResolution as [|[]| |].
    + rewrite Math_pow_2_infinite by lia.
      by destruct maxResolution as [|[]| |].
Qed.

End Resolutions.

(** ** The binary64 embedding: wrapX *)

Lemma to_Q_finite_pos (m : positive) (e : Z) :
  (0 < to_Q (S754_finite false m e))%Q.
Proof.
  unfold to_Q. destruct (0 <=? e)%Z eqn:He.
  - apply Z.leb_le in He.
    assert (Hpow : (0 < 2 ^ e)%Z) by (by apply Z.pow_pos_nonneg).
    unfold Qlt, inject_Z. cbn [Qnum Qden]. nia.
  - unfold Qlt. cbn [Qnum Qden]. lia.
Qed.

(** The ceiling of a number in [(-1, 0]] is a zero. *)
Lemma Math_ceil_zero (q : number) :
  is_finite q = true → (-1 < to_Q q)%Q → (to_Q q <= 0)%Q →
  is_zero (Math_ceil q) = true.
Proof.
  destruct q as [s|s| |s m e]; try done.
  intros _ Hlo Hhi. destruct s.
  - unfold Math_ceil. unfold to_Q in Hlo.
    destruct (0 <=? e)%Z eqn:He.
    + apply Z.leb_le in He. exfalso.
      assert (Hpow : (0 < 2 ^ e)%Z) by (by apply Z.pow_pos_nonneg).
      unfold Qlt, Qopp, inject_Z in Hlo. cbn [Qnum Qden] in Hlo. nia.
    + apply Z.leb_gt in He.
      assert (Hpow : (0 < 2 ^ (- e))%Z) by (apply Z.pow_pos_nonneg; lia).
      assert (Hm : (Zpos m < 2 ^ (- e))%Z).
      { unfold Qlt, Qopp in Hlo. cbn [Qnum Qden] in Hlo.
        rewrite Z2Pos.id in Hlo by done. lia. }
      cbv zeta. rewrite Z.div_small by lia. done.
  - exfalso. pose proof (to_Q_finite_pos m e) as Hpos.
    eapply Qlt_irrefl, Qlt_le_trans; [exact Hpos | exact Hhi].
Qed.

Lemma mul_zero_r (x z : number) :
  is_finite x = true → is_zero z = true → is_zero (mul x z) = true.
Proof. by destruct x, z. Qed.

(** Adding a zero leaves a number as it is, but for the sign of a zero. *)
Lemma add_zero_r (x z : number) :
  is_zero z = true →
  add x z = x ∨ (is_zero x = true ∧ is_zero (add x z) = true).
Proof. destruct x as [[]| | |], z as [[]| | |]; try done; by (left + right). Qed.

(** A finite number minus itself is [+0]. *)
Lemma sub_diag (x : number) : is_finite x = true → sub x x = S754_zero false.
Proof.
  destruct x as [[]| | |s m e]; try done. intros _.
  unfold sub, SFsub. rewrite Z.min_id. unfold shl_align.
  rewrite Z.sub_diag. cbn [fst]. done.
Qed.

Lemma div_zero_finite (x y : number) :
  is_zero x = true → is_finite y = true → is_zero y = false →
  is_finite (div x y) = true ∧ is_zero (div x y) = true.
Proof. by destruct x, y. Qed.

Lemma Math_ceil_of_zero (x : number) :
  is_zero x = true → is_zero (Math_ceil x) = true.
Proof. by destruct x. Qed.

Lemma div_eucl_shiftl_self (m : positive) :
  Z.div_eucl (Z.shiftl (Zpos m) 53) (Zpos m) = (9007199254740992%Z, 0%Z).
Proof.
  rewrite Z.shiftl_mul_pow2 by lia.
  change (2 ^ 53)%Z with 9007199254740992%Z.
  rewrite Z.mul_comm.
  pose proof (Z.div_mul 9007199254740992 (Zpos m) ltac:(lia)) as Hq.
  pose proof (Z.mod_mul 9007199254740992 (Zpos m) ltac:(lia)) as Hr.
  unfold Z.div, Z.modulo in Hq, Hr.
  destruct (Z.div_eucl (9007199254740992 * Zpos m) (Zpos m)) as [q r].
  simpl in *. congruence.
Qed.

(** A negative number over its opposite is [-1]. *)
Lemma div_opp_self (m : positive) (e : Z) :
  div (S754_finite true m e) (S754_finite false m e) = of_Z (-1).
Proof.
  unfold div, prec, emax, SFdiv, SFdiv_core_binary.
  rewrite !Z.sub_diag.
  change (Z.min (fexp 53 1024 0) 0) with (-53)%Z.
  change (0 - -53)%Z with 53%Z. cbv beta iota.
  rewrite div_eucl_shiftl_self.
  replace (new_location (Zpos m) 0) with loc_Exact
    by (unfold new_location; by destruct (Z.even (Zpos m))).
  by vm_compute.
Qed.

Lemma digits2_pos_bounds (p : positive) :
  (2 ^ (Zpos (digits2_pos p) - 1) ≤ Zpos p < 2 ^ Zpos (digits2_pos p))%Z.
Proof.
  induction p as [p IH | p IH |]; cbn [digits2_pos].
  - rewrite Pos2Z.inj_succ.
    replace (Z.succ (Zpos (digits2_pos p)) - 1)%Z
      with (Z.succ (Zpos (digits2_pos p) - 1)) by lia.
    rewrite !Z.pow_succ_r by lia. lia.
  - rewrite Pos2Z.inj_succ.
    replace (Z.succ (Zpos (digits2_pos p)) - 1)%Z
      with (Z.succ (Zpos (digits2_pos p) - 1)) by lia.
    rewrite !Z.pow_succ_r by lia. lia.
  - simpl. lia.
Qed.

Lemma digits2_pos_unique (p : positive) (n : Z) :
  (2 ^ (n - 1) ≤ Zpos p < 2 ^ n)%Z → (0 < n)%Z → Zpos (digits2_pos p) = n.
Proof.
  intros [Hlo Hhi] Hn. pose proof (digits2_pos_bounds p) as [Hlo' Hhi'].
  destruct (Z.lt_trichotomy (Zpos (digits2_pos p)) n) as [Hlt | [Heq | Hgt]].
  - pose proof (Z.pow_le_mono_r 2 (Zpos (digits2_pos p)) (n - 1)
                  ltac:(lia) ltac:(lia)). lia.
  - done.
  - pose proof (Z.pow_le_mono_r 2 n (Zpos (digits2_pos p) - 1)
                  ltac:(lia) ltac:(lia)). lia.
Qed.

Lemma digits2_pos_53 (p : positive) :
  (4503599627370496 ≤ Zpos p < 9007199254740992)%Z →
  digits2_pos p = 53%positive.
Proof.
  intros Hp. assert (Zpos (digits2_pos p) = 53%Z); [| congruence].
  apply digits2_pos_unique; [| lia].
  change (2 ^ (53 - 1))%Z with 4503599627370496%Z.
  change (2 ^ 53)%Z with 9007199254740992%Z. lia.
Qed.

Lemma loc_of_shr_record_of_loc (m : Z) (l : location) :
  loc_of_shr_record (shr_record_of_loc m l) = l.
Proof. by destruct l as [|[]]. Qed.

Lemma shr_m_record_of_loc (m : Z) (l : location) :
  shr_m (shr_record_of_loc m l) = m.
Proof. by destruct l as [|[]]. Qed.

(** Rounding a mantissa of 53 digits: it stays, or goes up by one. *)
Lemma round_53 (s : bool) (q : positive) (e : Z) (l : location) :
  digits2_pos q = 53%positive → (-1074 ≤ e)%Z → (e ≤ 970)%Z →
  binary_round_aux 53 1024 s (Zpos q) e l =
    let q2 := round_nearest_even (Zpos q) l in
    if (q2 <? 9007199254740992)%Z then S754_finite s (Z.to_pos q2) e
    else S754_finite s 4503599627370496 (e + 1).
Proof.
  intros Hd Hlo Hhi.
  pose proof (digits2_pos_bounds q) as Hq. rewrite Hd in Hq.
  change (2 ^ (53 - 1))%Z with 4503599627370496%Z in Hq.
  change (2 ^ 53)%Z with 9007199254740992%Z in Hq.
  unfold binary_round_aux, shr_fexp at 1.
  cbv beta iota zeta delta [Zdigits2]. rewrite Hd.
  rewrite fexp_normal, Z.sub_diag by done.
  cbv beta iota delta [shr].
  rewrite shr_m_record_of_loc, loc_of_shr_record_of_loc.
  set (q2 := round_nearest_even (Zpos q) l).
  assert (Hq2 : q2 = Zpos q ∨ q2 = (Zpos q + 1)%Z).
  { subst q2. destruct l as [|[]]; cbn [round_nearest_even]; auto.
    destruct (Z.even (Z.pos q)); auto. }
  destruct (q2 <? 9007199254740992)%Z eqn:Hlt.
  - apply Z.ltb_lt in Hlt.
    assert (Hpos : q2 = Zpos (Z.to_pos q2)) by (rewrite Z2Pos.id; lia).
    rewrite Hpos. unfold shr_fexp.
    cbv beta iota zeta delta [Zdigits2].
    rewrite (digits2_pos_53 (Z.to_pos q2)) by lia.
    rewrite fexp_normal, Z.sub_diag by done.
    cbv beta iota delta [shr shr_record_of_loc shr_m].
    by replace (e <=? 1024 - 53)%Z with true by (symmetry; apply Z.leb_le; lia).
  - apply Z.ltb_ge in Hlt.
    assert (Heq : q2 = 9007199254740992%Z) by lia. rewrite Heq.
    unfold shr_fexp. cbv beta iota zeta delta [Zdigits2].
    change (digits2_pos 9007199254740992) with 54%positive.
    replace (fexp 53 1024 (54 + e) - e)%Z with 1%Z
      by (unfold fexp, emin; lia).
    cbv beta iota delta [shr shr_record_of_loc SpecFloat.iter_pos shr_1 orb
                         shr_m].
    by replace (e + 1 <=? 1024 - 53)%Z with true
      by (symmetry; apply Z.leb_le; lia).
Qed.

(** Rounding a mantissa of 54 digits: the last digit goes to the location. *)
Lemma round_54_even (s : bool) (p : positive) (e : Z) (l : location) :
  digits2_pos p = 53%positive → (-1075 ≤ e)%Z → (e ≤ 970)%Z →
  binary_round_aux 53 1024 s (Zpos p~0) e l = S754_finite s p (e + 1).
Proof.
  intros Hd Hlo Hhi.
  unfold binary_round_aux, shr_fexp at 1.
  cbv beta iota zeta delta [Zdigits2 digits2_pos]. fold digits2_pos.
  rewrite Hd. change (Z.pos (Pos.succ 53)) with 54%Z.
  replace (fexp 53 1024 (54 + e) - e)%Z with 1%Z
    by (unfold fexp, emin; lia).
  assert (Hround : ∀ mrs,
            mrs = shr_1 (shr_record_of_loc (Zpos p~0) l) →
            round_nearest_even (shr_m mrs) (loc_of_shr_record mrs) = Zpos p).
  { intros mrs ->. by destruct l as [|[]]. }
  cbv beta iota delta [shr SpecFloat.iter_pos].
  rewrite (Hround _ eq_refl).
  unfold shr_fexp. cbv beta iota zeta delta [Zdigits2]. rewrite Hd.
  rewrite fexp_normal, Z.sub_diag by lia.
  cbv beta iota delta [shr shr_record_of_loc shr_m].
  by replace (e + 1 <=? 1024 - 53)%Z with true
    by (symmetry; apply Z.leb_le; lia).
Qed.

Lemma round_54_odd (s : bool) (p : positive) (e : Z) (l : location) :
  digits2_pos p = 53%positive → (-1075 ≤ e)%Z → (e ≤ 969)%Z →
  ∃ l', binary_round_aux 53 1024 s (Zpos p~1) e l =
        binary_round_aux 53 1024 s (Zpos p) (e + 1) l'.
Proof.
  intros Hd Hlo Hhi.
  exists (loc_of_shr_record (shr_1 (shr_record_of_loc (Zpos p~1) l))).
  unfold binary_round_aux at 1. unfold shr_fexp at 1.
  cbv beta iota zeta delta [Zdigits2 digits2_pos]. fold digits2_pos.
  rewrite Hd. change (Z.pos (Pos.succ 53)) with 54%Z.
  replace (fexp 53 1024 (54 + e) - e)%Z with 1%Z
    by (unfold fexp, emin; lia).
  cbv beta iota delta [shr SpecFloat.iter_pos].
  assert (Hm : shr_m (shr_1 (shr_record_of_loc (Zpos p~1) l)) = Zpos p)
    by (by destruct l as [|[]]).
  rewrite Hm. symmetry.
  unfold binary_round_aux. unfold shr_fexp at 1.
  cbv beta iota zeta delta [Zdigits2]. rewrite Hd.
  rewrite fexp_normal, Z.sub_diag by lia.
  cbv beta iota delta [shr].
  by rewrite shr_m_record_of_loc, loc_of_shr_record_of_loc.
Qed.

Lemma Math_ceil_below_one (m : positive) (e : Z) :
  (e < 0)%Z → (Zpos m < 2 ^ (- e))%Z →
  Math_ceil (S754_finite true m e) = S754_zero true.
Proof.
  intros He Hm. unfold Math_ceil.
  replace (0 <=? e)%Z with false by (symmetry; apply Z.leb_gt; lia).
  cbv zeta. by rewrite Z.div_small by lia.
Qed.

(** The quotient of a negative normal number by a larger positive one, when
    it does not underflow, is above [-1]. *)
Lemma div_normal_above_minus_one (ma mb : positive) (ea eb : Z) :
  digits2_pos ma = 53%positive → digits2_pos mb = 53%positive →
  (-1021 ≤ ea - eb)%Z →
  (ea < eb)%Z ∨ (ea = eb ∧ (Zpos ma < Zpos mb)%Z) →
  ∃ m e,
    div (S754_finite true ma ea) (S754_finite false mb eb) =
      S754_finite true m e ∧
    (e < 0)%Z ∧ (Zpos m < 2 ^ (- e))%Z.
Proof.
  intros Hda Hdb Hlo Hlt.
  pose proof (digits2_pos_bounds ma) as Hma. rewrite Hda in Hma.
  pose proof (digits2_pos_bounds mb) as Hmb. rewrite Hdb in Hmb.
  change (2 ^ (53 - 1))%Z with 4503599627370496%Z in Hma, Hmb.
  change (2 ^ 53)%Z with 9007199254740992%Z in Hma, Hmb.
  unfold div, prec, emax, SFdiv, SFdiv_core_binary.
  cbv beta iota zeta delta [Zdigits2]. rewrite Hda, Hdb.
  replace (Z.min (fexp 53 1024 (53 + ea - (53 + eb))) (ea - eb))
    with (ea - eb - 53)%Z by (unfold fexp, emin; lia).
  replace (ea - eb - (ea - eb - 53))%Z with 53%Z by lia. cbv beta iota.
  rewrite Z.shiftl_mul_pow2 by lia.
  change (2 ^ 53)%Z with 9007199254740992%Z.
  set (e' := (ea - eb - 53)%Z).
  assert (He' : (-1074 ≤ e' ∧ e' ≤ -53)%Z) by (subst e'; lia).
  assert (Hpow : ∀ k, (53 ≤ k)%Z → (9007199254740992 ≤ 2 ^ k)%Z).
  { intros k Hk. change 9007199254740992%Z with (2 ^ 53)%Z.
    apply Z.pow_le_mono_r; lia. }
  destruct (Z.div_eucl (Zpos ma * 9007199254740992) (Zpos mb))
    as [q r] eqn:Hqr.
  assert (Hq : q = (Zpos ma * 9007199254740992 / Zpos mb)%Z)
    by (unfold Z.div; by rewrite Hqr).
  assert (Hq_lo : (4503599627370496 ≤ q)%Z)
    by (rewrite Hq; apply Z.div_le_lower_bound; lia).
  assert (Hq_hi : (q < 18014398509481983)%Z)
    by (rewrite Hq; apply Z.div_lt_upper_bound; lia).
  assert (Hq_eq : ea = eb → (q < 9007199254740991)%Z).
  { intros Heq. rewrite Hq. apply Z.div_lt_upper_bound; lia. }
  destruct q as [|qp|qp]; [lia | | lia].
  set (l := new_location (Zpos mb) r). clearbody l. clear Hqr Hq.
  cbv [xorb].
  destruct (decide (Zpos qp < 9007199254740992)%Z) as [Hsmall | Hlarge].
  - rewrite round_53 by (by apply digits2_pos_53 || lia). cbv zeta.
    assert (Hq2 : round_nearest_even (Zpos qp) l = Zpos qp ∨
                  round_nearest_even (Zpos qp) l = (Zpos qp + 1)%Z).
    { destruct l as [|[]]; cbn [round_nearest_even]; auto.
      destruct (Z.even (Zpos qp)); auto. }
    generalize dependent (round_nearest_even (Zpos qp) l). intros q2 Hq2.
    destruct (q2 <? 9007199254740992)%Z eqn:Hlt2.
    + apply Z.ltb_lt in Hlt2. eexists _, _. split; [done |].
      split; [lia |]. rewrite Z2Pos.id by lia.
      pose proof (Hpow (- e')%Z ltac:(lia)). lia.
    + apply Z.ltb_ge in Hlt2. eexists _, _. split; [done |].
      assert (ea ≠ eb) by (intros Heq; specialize (Hq_eq Heq); lia).
      split; [lia |].
      pose proof (Hpow (- (e' + 1))%Z ltac:(subst e'; lia)). lia.
  - destruct qp as [p | p |]; [| | lia].
    + assert (Hdp : digits2_pos p = 53%positive)
        by (apply digits2_pos_53; lia).
      destruct (round_54_odd true p e' l Hdp) as [l' ->]; [lia | lia |].
      rewrite round_53 by (done || lia). cbv zeta.
      assert (Hq2 : round_nearest_even (Zpos p) l' = Zpos p ∨
                    round_nearest_even (Zpos p) l' = (Zpos p + 1)%Z).
      { destruct l' as [|[]]; cbn [round_nearest_even]; auto.
        destruct (Z.even (Zpos p)); auto. }
      generalize dependent (round_nearest_even (Zpos p) l').
      intros q2 Hq2.
      replace (q2 <? 9007199254740992)%Z with true
        by (symmetry; apply Z.ltb_lt; lia).
      eexists _, _. split; [done |].
      assert (ea ≠ eb) by (intros Heq; specialize (Hq_eq Heq); lia).
      split; [lia |]. rewrite Z2Pos.id by lia.
      pose proof (Hpow (- (e' + 1))%Z ltac:(subst e'; lia)). lia.
    + assert (Hdp : digits2_pos p = 53%positive)
        by (apply digits2_pos_53; lia).
      rewrite round_54_even by (done || lia).
      eexists _, _. split; [done |].
      assert (ea ≠ eb) by (intros Heq; specialize (Hq_eq Heq); lia).
      split; [lia |].
      pose proof (Hpow (- (e' + 1))%Z ltac:(subst e'; lia)). lia.
Qed.

(** Of two positive numbers, the smaller has the lower exponent, or the same
    exponent and the lower mantissa. *)
Lemma ltb_finite (ma mb : positive) (ea eb : Z) :
  ltb (S754_finite false ma ea) (S754_finite false mb eb) = true →
  (ea < eb)%Z ∨ (ea = eb ∧ (Zpos ma < Zpos mb)%Z).
Proof.
  unfold ltb, SFltb, SFcompare.
  destruct (ea ?= eb)%Z eqn:He; [| | done].
  - apply Z.compare_eq in He. intros Hm. right. split; [done |].
    change (Pos.compare_cont Eq ma mb) with (ma ?= mb)%positive in Hm.
    by destruct (ma ?= mb)%positive eqn:Hc.
  - intros _. left. by apply Z.compare_lt_iff.
Qed.

Section Wrap.

Context `{Environment} {G : Type} `{TileGridLike G}.

Lemma wrapX_unfold (tileGrid : G) (tileCoord : TileCoord)
    (projection : ProjectionLike) (projectionExtent : Extent) :
  extentFromProjection projection = Some projectionExtent →
  let center := getTileCoordCenter tileGrid tileCoord in
  let worldWidth := getWidth projectionExtent in
  let worldsAway :=
    Math_ceil (div (sub (minX projectionExtent) center.1) worldWidth) in
  wrapX tileGrid tileCoord projection =
    Some (if containsCoordinate projectionExtent center then tileCoord
          else getTileCoordForCoordAndZ tileGrid
                 (add center.1 (mul worldWidth worldsAway), center.2)
                 (tileCoord_z tileCoord)).
Proof.
  intros Hext. cbv zeta. unfold wrapX. rewrite Hext. simpl.
  by destruct (containsCoordinate projectionExtent _).
Qed.

(** The wrap branch, whatever the numbers: for a center the extent does not
    contain, [wrapX] asks the grid, at the zoom level of the tile, about the
    center moved along X by [worldWidth * worldsAway]. *)
Lemma wrapX_wrap_branch (tileGrid : G) (tileCoord : TileCoord)
    (projection : ProjectionLike) (projectionExtent : Extent) :
  extentFromProjection projection = Some projectionExtent →
  let center := getTileCoordCenter tileGrid tileCoord in
  let worldWidth := getWidth projectionExtent in
  let worldsAway :=
    Math_ceil (div (sub (minX projectionExtent) center.1) worldWidth) in
  containsCoordinate projectionExtent center = false →
  wrapX tileGrid tileCoord projection =
    Some (getTileCoordForCoordAndZ tileGrid
            (add center.1 (mul worldWidth worldsAway), center.2)
            (tileCoord_z tileCoord)).
Proof.
  intros Hext center worldWidth worldsAway Hout.
  rewrite (wrapX_unfold _ _ _ _ Hext). cbv zeta. fold center.
  by rewrite Hout.
Qed.

(** C10, as the code has it.  A center whose Y coordinate is outside the
    vertical range of the extent takes the wrap branch whatever its X
    coordinate: [wrapX] returns the tile coordinate the grid gives, at the
    zoom level of the tile, for the center moved along X by
    [worldWidth * worldsAway], its Y coordinate as it was.  No world away and
    the X coordinate as it was (but for the sign of a zero) is what the code
    computes when the quotient [(minX - centerX) / worldWidth] it has rounded
    is above [-1] and at most [0], for a finite world width.  So it is for a
    center on the left edge, [centerX = minX], and whenever the difference
    [minX - centerX] it has rounded is negative and smaller than the world
    width in magnitude, both being normal numbers whose quotient does not
    underflow.  When that difference is the opposite of the world width,
    [worldsAway] is [-1]. *)
Theorem wrapX_outside_vertically (tileGrid : G) (tileCoord : TileCoord)
    (projection : ProjectionLike) (projectionExtent : Extent) :
  extentFromProjection projection = Some projectionExtent →
  let center := getTileCoordCenter tileGrid tileCoord in
  let worldWidth := getWidth projectionExtent in
  let quotient := div (sub (minX projectionExtent) center.1) worldWidth in
  let worldsAway := Math_ceil quotient in
  let movedX := add center.1 (mul worldWidth worldsAway) in
  leb (minY projectionExtent) center.2 &&
    leb center.2 (maxY projectionExtent) = false →
  containsCoordinate projectionExtent center = false ∧
  wrapX tileGrid tileCoord projection =
    Some (getTileCoordForCoordAndZ tileGrid (movedX, center.2)
            (tileCoord_z tileCoord)) ∧
  (is_finite worldWidth = true → is_finite quotient = true →
   (-1 < to_Q quotient)%Q → (to_Q quotient <= 0)%Q →
   is_zero worldsAway = true ∧
   (movedX = center.1 ∨ (is_zero center.1 = true ∧ is_zero movedX = true))) ∧
  (is_finite worldWidth = true → is_zero worldWidth = false →
   is_finite center.1 = true → center.1 = minX projectionExtent →
   is_zero worldsAway = true ∧
   (movedX = center.1 ∨ (is_zero center.1 = true ∧ is_zero movedX = true))) ∧
  (let difference := sub (minX projectionExtent) center.1 in
   is_normal worldWidth = true → signbit worldWidth = false →
   is_normal difference = true → signbit difference = true →
   (-1021 ≤ exponent difference - exponent worldWidth)%Z →
   ltb (opp difference) worldWidth = true →
   is_zero worldsAway = true ∧
   (movedX = center.1 ∨ (is_zero center.1 = true ∧ is_zero movedX = true))) ∧
  (∀ (mW : positive) (eW : Z),
     worldWidth = S754_finite false mW eW →
     sub (minX projectionExtent) center.1 = S754_finite true mW eW →
     worldsAway = of_Z (-1)).
Proof.
  intros Hext center worldWidth quotient worldsAway movedX Hy.
  assert (Hout : containsCoordinate projectionExtent center = false).
  { unfold containsCoordinate. rewrite <-andb_assoc. rewrite Hy.
    apply andb_false_r. }
  split_and!; [done | by apply wrapX_wrap_branch | | | |].
  - intros Hw Hq Hlo Hhi.
    assert (Haway : is_zero worldsAway = true) by (by apply Math_ceil_zero).
    split; [done |]. apply add_zero_r. by apply mul_zero_r.
  - intros Hw Hw0 Hx Hedge.
    assert (Haway : is_zero worldsAway = true).
    { subst worldsAway quotient. rewrite <-Hedge, sub_diag by done.
      apply Math_ceil_of_zero. by apply div_zero_finite. }
    split; [done |]. apply add_zero_r. by apply mul_zero_r.
  - intros difference HW HWs Hd Hds Hgap Hlt.
    assert (Haway : is_zero worldsAway = true).
    { subst worldsAway quotient. fold difference.
      destruct worldWidth as [| | |[] mb eb]; try done.
      destruct difference as [| | |[] ma ea]; try done.
      apply Pos.eqb_eq in HW, Hd. apply ltb_finite in Hlt.
      destruct (div_normal_above_minus_one ma mb ea eb)
        as (m & e & -> & He & Hm); try done.
      by rewrite Math_ceil_below_one. }
    split; [done |]. apply add_zero_r. apply mul_zero_r; [| done].
    by destruct worldWidth.
  - intros mW eW HW Hdiff. subst worldsAway quotient.
    rewrite Hdiff, HW, div_opp_self. by vm_compute.
Qed.

(** X21.  An extent of no width: for a center it does not contain, the
    quotient [(minX - centerX) / worldWidth] is a division by zero, and
    [wrapX] asks the grid about a center whose X coordinate is NaN. *)
Theorem wrapX_zero_width (tileGrid : G) (tileCoord : TileCoord)
    (projection : ProjectionLike) (projectionExtent : Extent) :
  extentFromProjection projection = Some projectionExtent →
  let center := getTileCoordCenter tileGrid tileCoord in
  is_zero (getWidth projectionExtent) = true →
  containsCoordinate projectionExtent center = false →
  wrapX tileGrid tileCoord projection =
    Some (getTileCoordForCoordAndZ tileGrid (S754_nan, center.2)
            (tileCoord_z tileCoord)).
Proof.
  intros Hext center Hw Hout.
  rewrite (wrapX_wrap_branch _ _ _ _ Hext Hout). fold center.
  do 3 f_equal.
  destruct (getWidth projectionExtent) as [sw| | |]; try done.
  destruct (sub (minX projectionExtent) center.1) as [sa|sa| |sa ma ea],
    center.1 as [sx|sx| |sx mx ex]; done.
Qed.

End Wrap.

End F64Facts.

(** ** wrapX on a grid of the spec *)






(** ** The module on the sample data *)

(** The end-to-end scenario of the spec: one level, tiles of 256 pixels. *)
Example sample_resolutions_level0 :
  resolutionsFromExtent (H := Sample.env) Sample.mercatorExtent (Some 0%nat)
    (Some (SizeNumber (Qc_of_Z 256))) =
  [Some (Q2Qc (4007501668 # 25600))].
Proof.
  apply list_eq_Forall2.
  repeat constructor; f_equal; apply Qc_is_canon; vm_compute; reflexivity.
Qed.

Example sample_resolutions_pyramid :
  resolutionsFromExtent (H := Sample.env)
    (mkExtent 0 0 (Qc_of_Z 512) (Qc_of_Z 256)) (Some 2%nat)
    (Some (SizePair (Qc_of_Z 256, Qc_of_Z 256))) =
  [Some 2; Some 1; Some one_half].
Proof.
  apply list_eq_Forall2.
  repeat constructor; f_equal; apply Qc_is_canon; vm_compute; reflexivity.
Qed.

Example sample_resolutions_degenerate :
  resolutionsFromExtent (H := Sample.env) (mkExtent 1 1 1 1) (Some 1%nat)
    (Some (SizeNumber (Qc_of_Z 256))) = [Some 0; Some 0].
Proof.
  apply list_eq_Forall2.
  repeat constructor; f_equal; apply Qc_is_canon; vm_compute; reflexivity.
Qed.

Example sample_extentFromProjection_unbounded :
  extentFromProjection (H := Sample.env)
    (ProjectionInstance Sample.unbounded) =
  Some (let h := Q2Qc (2001507660 # 100) in mkExtent (- h) (- h) h h).
Proof.
  unfold extentFromProjection. simpl. f_equal. unfold createOrUpdate.
  f_equal; apply Qc_is_canon; vm_compute; reflexivity.
Qed.

Example sample_extentFromProjection_unknown :
  extentFromProjection (H := Sample.env) (ProjectionCode "EPSG:0") = None.
Proof. reflexivity. Qed.

Example sample_wrapX_inside :
  wrapX (H := Sample.env) Sample.worldGrid (1, 0, -1)%Z
    (ProjectionInstance Sample.world) = Some (1, 0, -1)%Z.
Proof. vm_compute. reflexivity. Qed.

Example sample_wrapX_left :
  wrapX (H := Sample.env) Sample.worldGrid (1, -1, -1)%Z
    (ProjectionInstance Sample.world) = Some (1, 1, -1)%Z.
Proof. vm_compute. reflexivity. Qed.

Example sample_wrapX_above :
  wrapX (H := Sample.env) Sample.worldGrid (1, 0, 0)%Z
    (ProjectionInstance Sample.world) = Some (1, 0, 0)%Z.
Proof. vm_compute. reflexivity. Qed.


(** ** The theorems at concrete inputs *)

Lemma createXYZ_spec_witness :
  (registry (Environment := Sample.env) !! "EPSG:3857" = Some Sample.epsg3857 ∧
   getExtent Sample.epsg3857 = Some Sample.mercatorExtent) ∧
  ∃ grid resolutions,
    createXYZ (H := Sample.env) None = Some grid ∧
    Options.extent (getOptions grid) = Some Sample.mercatorExtent ∧
    Options.resolutions (getOptions grid) = Some resolutions ∧
    length resolutions = 43%nat ∧
    ∀ z, (z ≤ 42)%nat →
      resolutions !! z =
        Some (Some (Math_max
                      (getWidth Sample.mercatorExtent / Qc_of_Z 256)
                      (getHeight Sample.mercatorExtent / Qc_of_Z 256)
                    / Math_pow 2 z)).
Proof.
  split; [by vm_compute |].
  destruct (createXYZ_spec (H := Sample.env) Sample.epsg3857
              Sample.mercatorExtent eq_refl eq_refl)
    as (Hdefault & _ & _).
  destruct (Hdefault None)
    as (grid & resolutions & Hgrid & Hextent & Hres & _ & Hlen & Hat);
    [by left |].
  exists grid, resolutions. by split_and!.
Defined.

Lemma wrapX_inside_witness :
  containsCoordinate (mkExtent 0 0 (Qc_of_Z 4) (Qc_of_Z 4))
    (getTileCoordCenter Sample.worldGrid (1, 0, -1)%Z) = true ∧
  wrapX (H := Sample.env) Sample.worldGrid (1, 0, -1)%Z
    (ProjectionInstance Sample.world) = Some (1, 0, -1)%Z.
Proof.
  split; [by vm_compute |].
  apply (wrapX_inside (H := Sample.env) Sample.worldGrid (1, 0, -1)%Z
           (ProjectionInstance Sample.world)
           (mkExtent 0 0 (Qc_of_Z 4) (Qc_of_Z 4)));
    reflexivity.
Defined.



Lemma sample_heap_wf : heap_wf Sample.heap.
Proof.
  intros l p g Hp Hg. unfold Sample.heap in Hp. simpl in Hp.
  destruct (decide (l = 1%positive)) as [-> | ?];
    [| destruct (decide (l = 2%positive)) as [-> | ?]];
    simplify_map_eq; done.
Qed.

Lemma getForProjection_cache_witness :
  ∃ g1 h1 g2 h2,
    getForProjection (H := Sample.env) 1%positive Sample.heap =
      Some (g1, h1) ∧
    getForProjection (H := Sample.env) 1%positive h1 = Some (g1, h1) ∧
    getForProjection (H := Sample.env) 2%positive h1 = Some (g2, h2) ∧
    g2 ≠ g1.
Proof.
  destruct (getForProjection_cache (H := Sample.env) Sample.heap
              1%positive 2%positive Sample.epsg3857 Sample.unbounded)
    as (g1 & h1 & g2 & h2 & Hfirst & _ & Hagain & Hother & Hne & _).
  - apply sample_heap_wf.
  - reflexivity.
  - reflexivity.
  - discriminate.
  - reflexivity.
  - by exists g1, h1, g2, h2.
Defined.

(** ** The further properties at concrete inputs *)

Lemma resolutionsFromExtent_prefix_witness :
  resolutionsFromExtent (H := Sample.env) Sample.mercatorExtent (Some 3%nat)
    None =
  take 4 (resolutionsFromExtent (H := Sample.env) Sample.mercatorExtent
            (Some 42%nat) None).
Proof.
  apply (resolutionsFromExtent_prefix (H := Sample.env)
           Sample.mercatorExtent 3 42 None).
  lia.
Defined.


Lemma createXYZ_options_witness :
  ∃ grid,
    createXYZ (H := Sample.env)
      (Some (Options.mk None (Some 3%nat) (Some 1%nat) None (Some [])
               None)) = Some grid ∧
    Options.minZoom (getOptions grid) = Some 1%nat ∧
    Options.extent (getOptions grid) = Some Sample.mercatorExtent ∧
    Options.resolutions (getOptions grid) =
      Some (resolutionsFromExtent (H := Sample.env) Sample.mercatorExtent
              (Some 3%nat) None).
Proof.
  set (options := Options.mk None (Some 3%nat) (Some 1%nat) None (Some [])
                    None).
  set (grid := new_TileGrid
                 (Options.mk (Some Sample.mercatorExtent) None (Some 1%nat)
                    None
                    (Some (resolutionsFromExtent (H := Sample.env)
                             Sample.mercatorExtent (Some 3%nat) None))
                    None)).
  assert (Hgrid : createXYZ (H := Sample.env) (Some options) = Some grid)
    by (by rewrite createXYZ_eq).
  destruct (createXYZ_options (H := Sample.env) (Some options) grid Hgrid)
    as (Hmin & _ & _ & _ & extent & Hextent & Hres).
  exists grid. by split_and!.
Defined.

Lemma getForProjection_frame_witness :
  ∃ g h',
    getForProjection (H := Sample.env) 1%positive Sample.heap = Some (g, h') ∧
    dom (projections h') = dom (projections Sample.heap).
Proof.
  destruct (getForProjection_miss (H := Sample.env) Sample.heap 1%positive
              Sample.epsg3857 eq_refl eq_refl) as (grid & _ & Hcall).
  destruct (getForProjection_frame (H := Sample.env) _ _ _ _ Hcall)
    as (Hdom & _).
  eauto.
Defined.

Lemma getForProjection_default_grid_witness :
  ∃ g h' grid,
    getForProjection (H := Sample.env) 1%positive Sample.heap = Some (g, h') ∧
    tileGrids h' !! g = Some grid ∧
    Options.extent (getOptions grid) = Some Sample.mercatorExtent ∧
    Options.origin (getOptions grid) =
      Some (minX Sample.mercatorExtent, maxY Sample.mercatorExtent).
Proof.
  destruct (getForProjection_miss (H := Sample.env) Sample.heap 1%positive
              Sample.epsg3857 eq_refl eq_refl) as (grid0 & _ & Hcall).
  destruct (getForProjection_default_grid (H := Sample.env) Sample.heap _
              1%positive _ Sample.epsg3857 eq_refl eq_refl Hcall)
    as (grid & resolutions & Hgrid & Hextent & Horigin & _).
  eauto 10.
Defined.

Lemma sample_heap_projections :
  Forall (λ l, is_Some (projections Sample.heap !! l))
    [1%positive; 2%positive; 1%positive].
Proof. repeat constructor; by eexists. Qed.

Lemma getForProjection_each_stable_witness :
  ∃ gs h',
    getForProjection_each (H := Sample.env)
      [1%positive; 2%positive; 1%positive] Sample.heap = Some (gs, h') ∧
    getForProjection_each (H := Sample.env)
      [1%positive; 2%positive; 1%positive] h' = Some (gs, h') ∧
    ∀ g g', gs !! 0%nat = Some g → gs !! 2%nat = Some g' → g = g'.
Proof.
  destruct (getForProjection_each_stable (H := Sample.env)
              [1%positive; 2%positive; 1%positive] Sample.heap
              sample_heap_wf sample_heap_projections)
    as (gs & h' & Hrun & _ & _ & _ & Hsame & _ & Hagain).
  exists gs, h'. split_and!; [done | done |].
  intros g g'. by apply (Hsame 0%nat 2%nat 1%positive).
Defined.

Lemma sample_heap_fresh :
  Forall (λ l, ∃ p, projections Sample.heap !! l = Some p ∧
                    getDefaultTileGrid p = None)
    [1%positive; 2%positive].
Proof. repeat constructor; by eexists. Qed.

Lemma getForProjection_each_fresh_witness :
  ∃ gs h',
    getForProjection_each (H := Sample.env) [1%positive; 2%positive]
      Sample.heap = Some (gs, h') ∧
    NoDup gs.
Proof.
  destruct (getForProjection_each_run (H := Sample.env)
              [1%positive; 2%positive] Sample.heap sample_heap_wf)
    as (gs & h' & Hrun & _).
  - repeat constructor; by eexists.
  - exists gs, h'. split; [done |].
    apply (getForProjection_each_fresh (H := Sample.env)
             [1%positive; 2%positive] gs Sample.heap h' sample_heap_wf).
    + apply (bool_decide_unpack _). by vm_compute.
    + apply sample_heap_fresh.
    + done.
Defined.

(** ** The binary64 embedding at concrete inputs *)

Module F64Examples.
Import F64 F64Facts.

(** An extent 512 wide and 256 high with tiles of 256 pixels: the level-0
    resolution is 2 and the three levels are 2, 1 and 1/2. *)
Lemma resolutions_pyramid_witness :
  let extent := mkExtent (of_Z 0) (of_Z 0) (of_Z 512) (of_Z 256) in
  let rs := resolutionsFromExtent (H := sample_env) extent (Some 2%nat)
              (Some (SizePair (of_Z 256, of_Z 256))) in
  length rs = 3%nat ∧
  rs !! 0%nat = Some (Some (of_Z 2)) ∧
  (∀ z, (z ≤ 2)%nat →
     rs !! z = Some (Some (S754_finite false 4503599627370496
                             (-51 - Z.of_nat z)))) ∧
  (∀ i j ri rj, (i < j)%nat → (j ≤ 2)%nat →
     rs !! i = Some (Some ri) → rs !! j = Some (Some rj) →
     ltb rj ri = true).
Proof.
  destruct (resolutions_pyramid (H := sample_env)
              (mkExtent (of_Z 0) (of_Z 0) (of_Z 512) (of_Z 256)) 2
              (of_Z 256) (of_Z 256))
    as (Hlen & _ & H0 & Hnormal & _).
  destruct (Hnormal false 4503599627370496%positive (-51)%Z)
    as (Hz & Hlt); [reflexivity | reflexivity | lia |].
  split_and!.
  - exact Hlen.
  - apply H0. reflexivity.
  - intros z Hle. apply Hz; lia.
  - intros i j ri rj Hij Hj. apply Hlt; [reflexivity | lia ..].
Defined.

(** C1 does not hold of the code: an extent of positive width and height
    [2 ^ -1073] with tiles of one pixel gives, for a maximum zoom of 3, the
    resolutions [2 ^ -1073], [2 ^ -1074], [0] and [0]: level 2 is not the
    level-0 resolution over 4, and levels 2 and 3 do not decrease. *)
Lemma resolutions_pyramid_counterexample :
  let extent :=
    mkExtent (of_Z 0) (of_Z 0) (dyadic 1 (-1073)) (dyadic 1 (-1073)) in
  let rs := resolutionsFromExtent (H := sample_env) extent (Some 3%nat)
              (Some (SizePair (of_Z 1, of_Z 1))) in
  ltb (of_Z 0) (getWidth extent) = true ∧
  ltb (of_Z 0) (getHeight extent) = true ∧
  rs = [Some (dyadic 1 (-1073)); Some (dyadic 1 (-1074));
        Some (S754_zero false); Some (S754_zero false)] ∧
  ¬ (∀ i j ri rj, (i < j)%nat →
       rs !! i = Some (Some ri) → rs !! j = Some (Some rj) →
       ltb rj ri = true).
Proof.
  cbv zeta. split_and!; [by vm_compute | by vm_compute | by vm_compute |].
  intros Hdecreasing.
  specialize (Hdecreasing 2%nat 3%nat (S754_zero false) (S754_zero false)).
  assert (Hlt : ltb (S754_zero false) (S754_zero false) = true).
  { apply Hdecreasing; [lia | by vm_compute | by vm_compute]. }
  discriminate Hlt.
Qed.

(** The same at ordinary magnitudes: with an extent 512 wide and tiles of 256
    pixels, the levels 1023, 1024 and 1025 are [2 ^ -1022], [0] and [0]. *)
Example resolutions_beyond_1023 :
  let extent := mkExtent (of_Z 0) (of_Z 0) (of_Z 512) (of_Z 256) in
  let rs := resolutionsFromExtent (H := sample_env) extent (Some 1025%nat)
              (Some (SizeNumber (of_Z 256))) in
  rs !! 1023%nat = Some (Some (dyadic 1 (-1022))) ∧
  rs !! 1024%nat = Some (Some (S754_zero false)) ∧
  rs !! 1025%nat = Some (Some (S754_zero false)).
Proof. by vm_compute. Qed.

(** Nor does it hold for every tile size: with tiles of negative sides the
    extent 512 wide and 256 high has the level-0 resolution -1, and the
    resolutions -1, -1/2 and -1/4 increase. *)
Example resolutions_negative_tile :
  resolutionsFromExtent (H := sample_env)
    (mkExtent (of_Z 0) (of_Z 0) (of_Z 512) (of_Z 256)) (Some 2%nat)
    (Some (SizeNumber (of_Z (-256)))) =
    [Some (of_Z (-1)); Some (dyadic (-1) (-1)); Some (dyadic (-1) (-2))] ∧
  ltb (of_Z (-1)) (dyadic (-1) (-1)) = true.
Proof. by vm_compute. Qed.



(** Negative resolutions do not propagate everywhere either: a negative
    width with a positive height gives the positive resolutions of the
    height, and a negative width and height give [-0] from level 1024. *)
Example resolutions_mixed_signs :
  resolutionsFromExtent (H := sample_env)
    (mkExtent (of_Z 512) (of_Z 0) (of_Z 0) (of_Z 256)) (Some 1%nat)
    (Some (SizeNumber (of_Z 256))) =
    [Some (of_Z 1); Some (dyadic 1 (-1))] ∧
  resolutionsFromExtent (H := sample_env)
    (mkExtent (of_Z 512) (of_Z 256) (of_Z 0) (of_Z 0)) (Some 1024%nat)
    (Some (SizeNumber (of_Z 256))) !! 1024%nat =
    Some (Some (S754_zero true)).
Proof. by vm_compute. Qed.

(** A halving in the normal range: levels 4 and 5 of the pyramid of the
    degrees square with tiles of 256 pixels. *)
Lemma resolutions_halving_witness :
  let rs := resolutionsFromExtent (H := sample_env) degreesExtent
              (Some 10%nat) (Some (SizeNumber (of_Z 256))) in
  ∃ r, rs !! 4%nat = Some (Some r) ∧
       rs !! 5%nat = Some (Some (div r (of_Z 2))).
Proof.
  apply (resolutions_halving (H := sample_env) degreesExtent 10
           (SizeNumber (of_Z 256)) false 6333186975989760%positive (-52)%Z
           4%nat); [by vm_compute | reflexivity | lia | lia | lia | lia].
Defined.

(** A center at longitude 10 and latitude 100: above the degrees square, in
    its horizontal range.  The difference [-180 - 10] is [-190], smaller than
    the width 360 of the square in magnitude: no world away, the center as
    it was. *)
Lemma wrapX_outside_vertically_witness :
  let center := (of_Z 10, of_Z 100) in
  let tileGrid := columnGrid center (of_Z (-180)) in
  leb (minY degreesExtent) center.2 && leb center.2 (maxY degreesExtent)
    = false ∧
  ltb (opp (sub (minX degreesExtent) center.1)) (getWidth degreesExtent)
    = true ∧
  wrapX (H := sample_env) tileGrid (3, 4, 5)%Z (ProjectionInstance degrees) =
    Some (getTileCoordForCoordAndZ tileGrid center 3%Z) ∧
  is_zero (Math_ceil (div (sub (minX degreesExtent) center.1)
                        (getWidth degreesExtent))) = true.
Proof.
  assert (Hy : leb (minY degreesExtent) (of_Z 100) &&
               leb (of_Z 100) (maxY degreesExtent) = false)
    by (by vm_compute).
  assert (Hlt : ltb (opp (sub (minX degreesExtent) (of_Z 10)))
                  (getWidth degreesExtent) = true)
    by (by vm_compute).
  destruct (wrapX_outside_vertically (H := sample_env)
              (columnGrid (of_Z 10, of_Z 100) (of_Z (-180))) (3, 4, 5)%Z
              (ProjectionInstance degrees) degreesExtent eq_refl)
    as (_ & Hwrap & Hquotient & _ & Hdifference & _); [exact Hy |].
  destruct Hquotient as [Haway _];
    [by vm_compute | by vm_compute | by vm_compute | by vm_compute |].
  destruct Hdifference as [Haway' Hmoved];
    [by vm_compute | by vm_compute | by vm_compute | by vm_compute
    | by vm_compute | exact Hlt |].
  split_and!; [exact Hy | exact Hlt | | exact Haway'].
  rewrite Hwrap. by vm_compute.
Defined.

(** C10 does not hold of the code: in the degrees square, a center at
    longitude 179.99999999999997, which is in [[-180, 180)], and latitude 100
    gives [-180 - 179.99999999999997 = -360] once rounded, so that
    [worldsAway] is [-1] and the center is moved to longitude
    -180.00000000000003; the grid is asked about that point, left of the
    square, not about the center. *)
Lemma wrapX_vertical_counterexample :
  let center := (dyadic 6333186975989759 (-45), of_Z 100) in
  let tileGrid := columnGrid center (of_Z (-180)) in
  let worldsAway :=
    Math_ceil (div (sub (minX degreesExtent) center.1)
                 (getWidth degreesExtent)) in
  leb (minX degreesExtent) center.1 = true ∧
  ltb center.1 (maxX degreesExtent) = true ∧
  ltb (maxY degreesExtent) center.2 = true ∧
  worldsAway = of_Z (-1) ∧
  add center.1 (mul (getWidth degreesExtent) worldsAway) =
    dyadic (-6333186975989761) (-45) ∧
  wrapX (H := sample_env) tileGrid (0, 0, 0)%Z (ProjectionInstance degrees) =
    Some (0, -1, 0)%Z ∧
  getTileCoordForCoordAndZ tileGrid center 0%Z = (0, 0, 0)%Z.
Proof. cbv zeta. split_and!; by vm_compute. Qed.

(** An extent of no width and no height with a tile size of 0, and one so
    wide that its width is the infinity, with tiles of one pixel. *)
Lemma resolutions_not_finite_witness :
  (∀ z, (z ≤ 2)%nat →
     resolutionsFromExtent (H := sample_env)
       (mkExtent (of_Z 3) (of_Z 5) (of_Z 3) (of_Z 5)) (Some 2%nat)
       (Some (SizeNumber (of_Z 0))) !! z = Some (Some S754_nan)) ∧
  (∀ z, (z ≤ 1024)%nat →
     resolutionsFromExtent (H := sample_env)
       (mkExtent (dyadic (-1) 1023) (of_Z 0) (dyadic 1 1023) (of_Z 0))
       (Some 1024%nat) (Some (SizeNumber (of_Z 1))) !! z =
       Some (Some (if decide (z ≤ 1023)%nat then S754_infinity false
                   else S754_nan))).
Proof.
  split.
  - apply (resolutions_not_finite (H := sample_env)
             (mkExtent (of_Z 3) (of_Z 5) (of_Z 3) (of_Z 5)) 2
             (SizeNumber (of_Z 0))).
    reflexivity.
  - apply (resolutions_not_finite (H := sample_env)
             (mkExtent (dyadic (-1) 1023) (of_Z 0) (dyadic 1 1023) (of_Z 0))
             1024 (SizeNumber (of_Z 1))).
    reflexivity.
Defined.

(** A meridian: the extent (7, -90, 7, 90) of no width, and a center at
    longitude 10 and latitude 0. *)
Lemma wrapX_zero_width_witness :
  let projectionExtent :=
    mkExtent (of_Z 7) (of_Z (-90)) (of_Z 7) (of_Z 90) in
  let projection :=
    ProjectionInstance
      (mkProjection "meridian" DEGREES (Some projectionExtent) (of_Z 1)
         None) in
  let tileGrid := columnGrid (of_Z 10, of_Z 0) (of_Z 7) in
  wrapX (H := sample_env) tileGrid (2, 0, 0)%Z projection =
    Some (getTileCoordForCoordAndZ tileGrid (S754_nan, of_Z 0) 2%Z).
Proof.
  assert (Hw : is_zero (getWidth (mkExtent (of_Z 7) (of_Z (-90)) (of_Z 7)
                                    (of_Z 90))) = true)
    by (by vm_compute).
  assert (Hout : containsCoordinate
                   (mkExtent (of_Z 7) (of_Z (-90)) (of_Z 7) (of_Z 90))
                   (of_Z 10, of_Z 0) = false)
    by (by vm_compute).
  exact (wrapX_zero_width (H := sample_env)
           (columnGrid (of_Z 10, of_Z 0) (of_Z 7)) (2, 0, 0)%Z
           (ProjectionInstance
              (mkProjection "meridian" DEGREES
                 (Some (mkExtent (of_Z 7) (of_Z (-90)) (of_Z 7) (of_Z 90)))
                 (of_Z 1) None))
           (mkExtent (of_Z 7) (of_Z (-90)) (of_Z 7) (of_Z 90))
           eq_refl Hw Hout).
Defined.

(** The moved center is rounded: one world of [2 ^ 60] units to the right
    of [-1/2], the code finds [2 ^ 60], not [2 ^ 60 - 1/2]; with tiles of one
    unit that is half a tile off. *)
Example wrapX_far_world :
  let projectionExtent :=
    mkExtent (of_Z 0) (of_Z 0) (of_Z (2 ^ 60)) (of_Z 4) in
  let center := (dyadic (-1) (-1), of_Z 1) in
  let worldsAway :=
    Math_ceil (div (sub (minX projectionExtent) center.1)
                 (getWidth projectionExtent)) in
  worldsAway = of_Z 1 ∧
  add center.1 (mul (getWidth projectionExtent) worldsAway) = of_Z (2 ^ 60).
Proof. cbv zeta. split; by vm_compute. Qed.

End F64Examples.
